(** * The NATS request/reply processor of Benthos

    A shallow embedding of [internal/impl/nats/processor_request_reply.go]:
    the [requestReplyProcessor] struct, its constructor, [connect],
    [Process] and [Close], followed by the properties the specification
    states about them.

    Go methods that mutate the receiver are functions in a state monad over
    the receiver and a log of the calls made on the broker client; a Go
    [(value, error)] return is a three-way result that also has a case for
    a run-time panic. *)

From Stdlib Require Import ZArith Ascii String List Lia.
From Stdlib Require SpecFloat.
From stdpp Require Import base option list gmap strings pretty.

Local Open Scope string_scope.
Local Open Scope list_scope.
Local Open Scope stdpp_scope.
Local Open Scope Z_scope.

(** ** Go values *)

(** A Go [[]byte]. *)
Definition bytes := string.

(** [time.Duration]: a signed count of nanoseconds. *)
Definition Duration := Z.

(** Go [error] values: [errors.New] texts, the [context] package's deadline
    error, and [fmt.Errorf] with a [%w] verb, which keeps the wrapped
    error. *)
Inductive error : Type :=
| errorString (s : string)
| DeadlineExceeded
| wrapError (msg : string) (err : error).

Definition Error (e : error) : string :=
  match e with
  | errorString s => s
  | DeadlineExceeded => "context deadline exceeded"
  | wrapError msg _ => msg
  end.

Definition Unwrap (e : error) : option error :=
  match e with
  | wrapError _ err => Some err
  | _ => None
  end.

(** [context.Context], as far as this file needs it: the time left until
    its deadline, [None] when it has none. *)
Definition Context := option Duration.

Definition Background : Context := None.

(** [context.WithTimeout parent d]: the child expires after [d], or with
    its parent when that comes sooner. *)
Definition WithTimeout (parent : Context) (d : Duration) : Context :=
  match parent with
  | None => Some d
  | Some remaining => Some (Z.min remaining d)
  end.

(** [strings.Join]. *)
Fixpoint Join (elems : list string) (sep : string) : string :=
  match elems with
  | [] => ""
  | [e] => e
  | e :: rest => e +:+ sep +:+ Join rest sep
  end.

(** ** The broker client, package [nats] *)

Module nats.

(** [nats.Header] is a [map[string][]string]. *)
Abbreviation Header := (gmap string (list string)).

(** [Header.Add] appends to the values already stored under the key. *)
Definition Add (key value : string) (h : Header) : Header :=
  <[key := h !!! key ++ [value]]> h.

(** The delivery data [Msg.Metadata] reports for a message that has it. *)
Record MsgMetadata := {
  SequenceStream : Z;
  SequenceConsumer : Z;
  NumDelivered : Z;
  NumPending : Z;
  Domain : string;
  TimestampUnixNano : Z
}.

Record Msg := {
  Subject : string;
  Header_ : Header;
  Data : bytes;
  Metadata : option MsgMetadata
}.

(** [nats.NewMsg]: the subject and an empty, allocated header. *)
Definition NewMsg (subject : string) : Msg :=
  {| Subject := subject; Header_ := ∅; Data := ""; Metadata := None |}.

Definition withData (m : Msg) (d : bytes) : Msg :=
  {| Subject := Subject m; Header_ := Header_ m; Data := d;
     Metadata := Metadata m |}.

Definition withHeader (m : Msg) (h : Header) : Msg :=
  {| Subject := Subject m; Header_ := h; Data := Data m;
     Metadata := Metadata m |}.

(** A live connection: its identity and what the server's INFO said
    about header support. *)
Record Conn := {
  connId : nat;
  infoHeaders : bool
}.

(** Material handed to the client untouched. *)
Inductive tlsConfig := TLSConfig (name : string).
Inductive authConfig := AuthConfig (name : string).
Inductive Logger := LoggerOf (name : string).
Inductive FS := FSOf (name : string).

(** The connection options [connect] assembles. *)
Inductive Option_ :=
| Secure (c : tlsConfig)
| CustomInboxPrefix (p : string)
| Name (n : string)
| AuthOption (n : string)
| ErrorHandler (l : Logger)
| Timeout (d : Duration).

(** The timeout a list of options leaves in [nats.Options]: options are
    applied in order, so the last [Timeout] stands. *)
Definition timeoutOf (opts : list Option_) : option Duration :=
  foldl (λ acc o, match o with
                  | Timeout d => Some d
                  | _ => acc
                  end) None opts.

End nats.

(** ** The host pipeline, package [service] *)

Module service.

(** A record of the pipeline: content and metadata. *)
Record Message := {
  content : bytes;
  metadata : gmap string string
}.

Definition MessageBatch := list Message.

Definition NewMessage (b : bytes) : Message :=
  {| content := b; metadata := ∅ |}.

Definition MetaSet (k v : string) (m : Message) : Message :=
  {| content := content m; metadata := <[k := v]> (metadata m) |}.

(** An interpolated string is used through [TryString] only: it is
    embedded as its evaluation against a record. *)
Record InterpolatedString := {
  TryString : Message → error + string
}.

(** A metadata filter is used through [Walk] only: it is embedded as the
    set of keys it selects. *)
Record MetadataFilter := {
  Match : string → bool
}.

(** What [ParsedConfig] answers to its accessors, one field per call: the
    calls the constructor makes, and those for the [metadata] field that
    the configuration spec declares (lines 62-64). *)
Record ParsedConfig := {
  FieldStringList_urls : error + list string;
  FieldInterpolatedString_subject : error + InterpolatedString;
  Contains_inbox_prefix : bool;
  FieldString_inbox_prefix : error + string;
  FieldInterpolatedStringMap_headers : error + gmap string InterpolatedString;
  Contains_metadata : bool;
  FieldMetadataFilter_metadata : error + MetadataFilter;
  FieldString_timeout : error + string;
  FieldTLSToggled_tls : error + (nats.tlsConfig * bool);
  AuthFromParsedConfig_auth : error + nats.authConfig
}.

Record Resources := {
  Label : string;
  Logger_ : nats.Logger;
  FS_ : nats.FS
}.

End service.

(** ** What lies outside the repository

    The record serializer, the order in which the Go runtime ranges over a
    map, the broker, the dialer and the duration parser are collaborators
    of the code: every statement below holds for all of them. *)
Class World := {
  (** [Message.AsBytes]: may fail, for a record that cannot be encoded. *)
  AsBytes : service.Message → error + bytes;
  (** The order of [for k, v := range m]: some order of the entries. *)
  rangeHeaders :
    gmap string service.InterpolatedString →
    list (string * service.InterpolatedString);
  rangeHeaders_perm : ∀ m, rangeHeaders m ≡ₚ map_to_list m;
  rangeMeta : gmap string string → list (string * string);
  rangeMeta_perm : ∀ m, rangeMeta m ≡ₚ map_to_list m;
  (** [Conn.RequestMsgWithContext] on a live connection: the reply, or the
      context's error when its deadline passes first, or a transport
      error. *)
  RequestMsgWithContext :
    nats.Conn → Context → nats.Msg → error + nats.Msg;
  (** The content constraint the pipeline puts on new records. *)
  recordConstraint : bytes → option error;
  (** [nats.Connect]. *)
  Connect : string → list nats.Option_ → error + nats.Conn;
  (** [time.ParseDuration]. *)
  ParseDuration : string → error + Duration;
  authConfToOptions : nats.authConfig → nats.FS → list nats.Option_
}.

(** ** The processor *)

(** [sync.RWMutex], seen from the calls of one run: acquiring is recorded
    when it returns. *)
Record RWMutex := {
  readers : nat;
  writer : bool
}.

Record requestReplyProcessor := {
  label : string;
  urls : string;
  headers : gmap string service.InterpolatedString;
  metaFilter : option service.MetadataFilter;
  subject : service.InterpolatedString;
  inboxPrefix : string;
  timeout : Duration;
  tlsConf : option nats.tlsConfig;
  authConf : nats.authConfig;
  log : nats.Logger;
  fs : nats.FS;
  natsConn : option nats.Conn;
  connMut : RWMutex
}.

Definition set_natsConn (c : option nats.Conn) (p : requestReplyProcessor)
  : requestReplyProcessor :=
  {| label := label p; urls := urls p; headers := headers p;
     metaFilter := metaFilter p; subject := subject p;
     inboxPrefix := inboxPrefix p; timeout := timeout p;
     tlsConf := tlsConf p; authConf := authConf p; log := log p;
     fs := fs p; natsConn := c; connMut := connMut p |}.

Definition set_connMut (m : RWMutex) (p : requestReplyProcessor)
  : requestReplyProcessor :=
  {| label := label p; urls := urls p; headers := headers p;
     metaFilter := metaFilter p; subject := subject p;
     inboxPrefix := inboxPrefix p; timeout := timeout p;
     tlsConf := tlsConf p; authConf := authConf p; log := log p;
     fs := fs p; natsConn := natsConn p; connMut := m |}.

(** Calls made on the broker client. *)
Inductive event :=
| Dialed (urls : string) (opts : list nats.Option_)
| Requested (c : nats.Conn) (ctx : Context) (m : nats.Msg)
| ConnClosed (c : nats.Conn).

(** ** The monad of a method call *)

Record State := {
  self : requestReplyProcessor;
  wire : list event
}.

(** How a Go call ends: [return v, nil], [return nil, err], or a panic. *)
Inductive result (A : Type) :=
| Done (a : A)
| Failed (e : error)
| Panicked.
Arguments Done {A} a.
Arguments Failed {A} e.
Arguments Panicked {A}.

Definition M (A : Type) : Type := State → result A * State.

#[global] Instance M_ret : MRet M := λ A a s, (Done a, s).

#[global] Instance M_bind : MBind M := λ A B f m s,
  match m s with
  | (Done a, s') => f a s'
  | (Failed e, s') => (Failed e, s')
  | (Panicked, s') => (Panicked, s')
  end.

Definition fail {A} (e : error) : M A := λ s, (Failed e, s).
Definition panic {A} : M A := λ s, (Panicked, s).
Definition this : M requestReplyProcessor := λ s, (Done (self s), s).

Definition update (f : requestReplyProcessor → requestReplyProcessor)
  : M unit :=
  λ s, (Done tt, {| self := f (self s); wire := wire s |}).

Definition emit (e : event) : M unit :=
  λ s, (Done tt, {| self := self s; wire := wire s ++ [e] |}).

(** [v, err := f(...); if err != nil { return nil, err }]. *)
Definition try {A} (r : error + A) : M A :=
  match r with
  | inl e => fail e
  | inr a => mret a
  end.

(** [defer f()]: [f] runs when the body is left, however it is left. *)
Definition defer {A} (f : requestReplyProcessor → requestReplyProcessor)
  (body : M A) : M A :=
  λ s, let '(r, s') := body s in
       (r, {| self := f (self s'); wire := wire s' |}).

Definition RLock (p : requestReplyProcessor) : requestReplyProcessor :=
  set_connMut {| readers := S (readers (connMut p));
                 writer := writer (connMut p) |} p.

Definition RUnlock (p : requestReplyProcessor) : requestReplyProcessor :=
  set_connMut {| readers := Nat.pred (readers (connMut p));
                 writer := writer (connMut p) |} p.

Definition Lock (p : requestReplyProcessor) : requestReplyProcessor :=
  set_connMut {| readers := readers (connMut p); writer := true |} p.

Definition Unlock (p : requestReplyProcessor) : requestReplyProcessor :=
  set_connMut {| readers := readers (connMut p); writer := false |} p.

#[global] Instance sum_ret : MRet (sum error) := λ A a, inr a.

#[global] Instance sum_bind : MBind (sum error) := λ A B f r,
  match r with
  | inl e => inl e
  | inr a => f a
  end.

Section Processor.

Context `{World}.

(** *** Collaborators inside the repository, outside [src/] *)

(** Modelled from the spec: [MetadataFilter.Walk] of package [service],
    which the repository defines outside [src/]. Section 4.3: the
    metadata selected by the configured filter rule is walked and handed
    on verbatim as key/value pairs. The filter field is optional in the
    configuration; a stage without one selects nothing. The closure
    [Process] passes never fails, so the walk is a fold. *)
Definition Walk {A} (f : option service.MetadataFilter)
    (msg : service.Message) (fn : string → string → A → A) (acc : A) : A :=
  match f with
  | None => acc
  | Some flt =>
      foldl (λ a kv, fn kv.1 kv.2 a) acc
        (List.filter (λ kv, service.Match flt kv.1)
           (rangeMeta (service.metadata msg)))
  end.

(** The metadata fields of a converted reply, named as the processor's
    description lists them. *)
Definition deliveryFields (md : nats.MsgMetadata) (msg : service.Message)
  : service.Message :=
  service.MetaSet "nats_timestamp_unix_nano"
    (pretty (nats.TimestampUnixNano md))
  (service.MetaSet "nats_domain" (nats.Domain md)
  (service.MetaSet "nats_num_pending" (pretty (nats.NumPending md))
  (service.MetaSet "nats_num_delivered" (pretty (nats.NumDelivered md))
  (service.MetaSet "nats_sequence_consumer"
    (pretty (nats.SequenceConsumer md))
  (service.MetaSet "nats_sequence_stream"
    (pretty (nats.SequenceStream md)) msg))))).

(** Modelled from the spec: [convertMessage] of package [nats], which the
    repository defines outside [src/]. Section 4.5: the output record's
    body is the reply payload, its metadata holds the source subject and,
    when present, the delivery data; the conversion fails only if the
    record cannot be constructed from the bytes. *)
Definition convertMessage (m : nats.Msg) : error + service.Message :=
  match recordConstraint (nats.Data m) with
  | Some err => inl err
  | None =>
      let msg := service.NewMessage (nats.Data m) in
      let msg := service.MetaSet "nats_subject" (nats.Subject m) msg in
      inr (match nats.Metadata m with
           | Some md => deliveryFields md msg
           | None => msg
           end)
  end.

(** [errorHandlerOption] of package [nats]. *)
Definition errorHandlerOption (l : nats.Logger) : nats.Option_ :=
  nats.ErrorHandler l.

(** *** Methods of the broker client on a possibly nil [*nats.Conn] *)

(** [Conn.HeadersSupported] reads the connection: on a nil receiver the
    call dereferences nil. *)
Definition HeadersSupported (nc : option nats.Conn) : M bool :=
  match nc with
  | Some c => mret (nats.infoHeaders c)
  | None => panic
  end.

Definition ErrInvalidConnection : error :=
  errorString "nats: invalid connection".

Definition RequestMsgWithContext_ (nc : option nats.Conn) (ctx : Context)
    (m : nats.Msg) : M nats.Msg :=
  match nc with
  | Some c => emit (Requested c ctx m) ;; try (RequestMsgWithContext c ctx m)
  | None => fail ErrInvalidConnection
  end.

(** *** [connect], lines 149-171 *)

Definition connectOptions (p : requestReplyProcessor) : list nats.Option_ :=
  let opts := [] in
  let opts := match tlsConf p with
              | Some c => opts ++ [nats.Secure c]
              | None => opts
              end in
  let opts := if decide (inboxPrefix p = "") then opts
              else opts ++ [nats.CustomInboxPrefix (inboxPrefix p)] in
  let opts := opts ++ [nats.Name (label p)] in
  let opts := opts ++ authConfToOptions (authConf p) (fs p) in
  let opts := opts ++ [errorHandlerOption (log p)] in
  opts ++ [nats.Timeout (timeout p)].

Definition connect (ctx : Context) : M unit :=
  update Lock ;;
  defer Unlock (
    p ← this;
    let opts := connectOptions p in
    emit (Dialed (urls p) opts) ;;
    match Connect (urls p) opts with
    | inl err => update (set_natsConn None) ;; fail err
    | inr c => update (set_natsConn (Some c))
    end).

(** *** [newRequestReplyProcessor], lines 98-147 *)

(** Lines 99-141: the fields read from the configuration. The struct is
    local to the constructor until it is returned, so it is built here
    once every field is known. *)
Definition configure (conf : service.ParsedConfig) (mgr : service.Resources)
  : error + requestReplyProcessor :=
  urlList ← service.FieldStringList_urls conf;
  subject ← service.FieldInterpolatedString_subject conf;
  inboxPrefix ← (if service.Contains_inbox_prefix conf
                 then service.FieldString_inbox_prefix conf
                 else inr "");
  headers ← service.FieldInterpolatedStringMap_headers conf;
  timeoutStr ← service.FieldString_timeout conf;
  timeout ← ParseDuration timeoutStr;
  '(tlsConf, tlsEnabled) ← service.FieldTLSToggled_tls conf;
  authConf ← service.AuthFromParsedConfig_auth conf;
  mret {| label := service.Label mgr;
          urls := Join urlList ",";
          headers := headers;
          metaFilter := None;
          subject := subject;
          inboxPrefix := inboxPrefix;
          timeout := timeout;
          tlsConf := if tlsEnabled : bool then Some tlsConf else None;
          authConf := authConf;
          log := service.Logger_ mgr;
          fs := service.FS_ mgr;
          natsConn := None;
          connMut := {| readers := 0; writer := false |} |}.

Definition newRequestReplyProcessor (conf : service.ParsedConfig)
    (mgr : service.Resources) : result requestReplyProcessor * list event :=
  match configure conf mgr with
  | inl err => (Failed err, [])
  | inr p =>
      match connect Background {| self := p; wire := [] |} with
      | (Done _, s) => (Done (self s), wire s)
      | (Failed err, s) => (Failed err, wire s)
      | (Panicked, s) => (Panicked, wire s)
      end
  end.

(** *** [Process], lines 173-213 *)

(** [fmt.Errorf("header %v interpolation error: %w", k, err)]. *)
Definition headerError (k : string) (err : error) : error :=
  wrapError ("header " +:+ k +:+ " interpolation error: " +:+ Error err) err.

(** Lines 189-195: the loop over the explicit headers, in the order the
    runtime ranges over the map. *)
Fixpoint addHeaders (kvs : list (string * service.InterpolatedString))
    (msg : service.Message) (h : nats.Header) : error + nats.Header :=
  match kvs with
  | [] => inr h
  | (k, v) :: rest =>
      match service.TryString v msg with
      | inl err => inl (headerError k err)
      | inr headerStr => addHeaders rest msg (nats.Add k headerStr h)
      end
  end.

Definition Process (ctx : Context) (msg : service.Message)
  : M service.MessageBatch :=
  update RLock ;;
  defer RUnlock (
    r ← this;
    subject ← try (service.TryString (subject r) msg);
    let nMsg := nats.NewMsg subject in
    data ← try (AsBytes msg);
    let nMsg := nats.withData nMsg data in
    supported ← HeadersSupported (natsConn r);
    nMsg ← (if supported : bool then
              h ← try (addHeaders (rangeHeaders (headers r)) msg
                         (nats.Header_ nMsg));
              mret (nats.withHeader nMsg
                      (Walk (metaFilter r) msg nats.Add h))
            else mret nMsg);
    let callCtx := WithTimeout ctx (timeout r) in
    resp ← RequestMsgWithContext_ (natsConn r) callCtx nMsg;
    msg ← try (convertMessage resp);
    mret [msg]).

(** *** [Close], lines 215-224 *)

Definition Close (ctx : Context) : M unit :=
  update Lock ;;
  defer Unlock (
    r ← this;
    match natsConn r with
    | Some c => emit (ConnClosed c) ;; update (set_natsConn None)
    | None => mret tt
    end).

(** What the Go caller receives from [Process]: the batch, nil on an
    error, and the error, nil on success. A panic returns nothing. *)
Definition returned (r : result service.MessageBatch)
  : option (service.MessageBatch * option error) :=
  match r with
  | Done b => Some (b, None)
  | Failed err => Some ([], Some err)
  | Panicked => None
  end.

End Processor.

(** ** A duration parser for concrete runs

    Go's [time.ParseDuration], for the worlds built below: [uint64]
    arithmetic with its wrap-around, the fractional part computed in
    [float64] as the original does, and the quoting of the error texts. *)
Module time.

Definition isDigit (c : ascii) : bool :=
  (48 <=? nat_of_ascii c)%nat && (nat_of_ascii c <=? 57)%nat.

Definition isDot (c : ascii) : bool := (nat_of_ascii c =? 46)%nat.

Definition digit (c : ascii) : Z := Z.of_nat (nat_of_ascii c) - 48.

Definition lowerhex (n : nat) : ascii :=
  if (n <? 10)%nat then ascii_of_nat (48 + n) else ascii_of_nat (87 + n).

(** [quote]: bytes outside printable ASCII as [\xhh], a backslash before
    a quotation mark or a backslash. *)
Fixpoint quoted (s : string) : string :=
  match s with
  | String c rest =>
      let n := nat_of_ascii c in
      if (128 <=? n)%nat || (n <? 32)%nat then
        String (ascii_of_nat 92)
          (String "x"
             (String (lowerhex (n / 16))
                (String (lowerhex (n mod 16)) (quoted rest))))
      else if (n =? 34)%nat || (n =? 92)%nat then
        String (ascii_of_nat 92) (String c (quoted rest))
      else String c (quoted rest)
  | EmptyString => EmptyString
  end.

Definition quote (s : string) : string :=
  let q := String (ascii_of_nat 34) "" in q +:+ quoted s +:+ q.

Definition invalid (orig : string) : error :=
  errorString ("time: invalid duration " +:+ quote orig).

(** Go's [float64] is IEEE 754 binary64: 53 bits of precision, rounding
    to nearest, ties to even. *)
Abbreviation Float64 := SpecFloat.spec_float.

Definition fmul (x y : Float64) : Float64 := SpecFloat.SFmul 53 1024 x y.
Definition fdiv (x y : Float64) : Float64 := SpecFloat.SFdiv 53 1024 x y.

(** [float64(x)] for a [uint64]. *)
Definition float64 (x : Z) : Float64 :=
  SpecFloat.binary_normalize 53 1024 x 0 false.

(** [uint64(x)] for a finite [float64] that is not negative: the
    fraction is cut off. *)
Definition uint64 (x : Float64) : Z :=
  match x with
  | SpecFloat.S754_finite false m e =>
      if 0 <=? e then Z.pos m * 2 ^ e else Z.pos m / 2 ^ (- e)
  | _ => 0
  end.

(** [leadingInt]: the leading digits, [None] on overflow. *)
Fixpoint leadingInt (s : string) (x : Z) : option (Z * string) :=
  match s with
  | String c rest =>
      if isDigit c then
        if 2 ^ 63 / 10 <? x then None
        else
          let x := x * 10 + digit c in
          if 2 ^ 63 <? x then None else leadingInt rest x
      else Some (x, s)
  | EmptyString => Some (x, s)
  end.

(** [leadingFraction]: digits past the overflow point are skipped. *)
Fixpoint leadingFraction (s : string) (x : Z) (scale : Float64)
    (overflow : bool) : Z * Float64 * string :=
  match s with
  | String c rest =>
      if isDigit c then
        if overflow then leadingFraction rest x scale overflow
        else if (2 ^ 63 - 1) / 10 <? x
        then leadingFraction rest x scale true
        else
          let y := x * 10 + digit c in
          if 2 ^ 63 <? y then leadingFraction rest x scale true
          else leadingFraction rest y
                 (fmul scale (float64 10)) overflow
      else (x, scale, s)
  | EmptyString => (x, scale, s)
  end.

(** The unit: everything up to the next digit or period. *)
Fixpoint spanUnit (s : string) : string * string :=
  match s with
  | String c rest =>
      if isDot c || isDigit c then ("", s)
      else let '(u, r) := spanUnit rest in (String c u, r)
  | EmptyString => ("", "")
  end.

Definition unitMap (u : string) : option Z :=
  if decide (u = "ns") then Some 1
  else if decide (u = "us") then Some 1000
  else if decide (u = "µs") then Some 1000
  else if decide (u = "μs") then Some 1000
  else if decide (u = "ms") then Some 1000000
  else if decide (u = "s") then Some 1000000000
  else if decide (u = "m") then Some 60000000000
  else if decide (u = "h") then Some 3600000000000
  else None.

(** The loop [for s != ""]; every round consumes a unit, so the length
    of the input bounds the rounds. *)
Fixpoint terms (fuel : nat) (orig s : string) (d : Z) : error + Z :=
  match s, fuel with
  | EmptyString, _ => inr d
  | _, O => inl (invalid orig)
  | String c _, S fuel =>
      if negb (isDot c || isDigit c) then inl (invalid orig)
      else
        match leadingInt s 0 with
        | None => inl (invalid orig)
        | Some (v, s1) =>
            let pre := negb (String.length s =? String.length s1)%nat in
            let '(f, scale, s2, post) :=
              match s1 with
              | String c1 r =>
                  if isDot c1 then
                    let '(f, scale, r') :=
                      leadingFraction r 0 (float64 1) false in
                    (f, scale, r',
                     negb (String.length r =? String.length r')%nat)
                  else (0, float64 1, s1, false)
              | EmptyString => (0, float64 1, s1, false)
              end in
            if negb pre && negb post then inl (invalid orig)
            else
              let '(u, s3) := spanUnit s2 in
              if decide (u = "") then
                inl (errorString
                       ("time: missing unit in duration " +:+ quote orig))
              else
                match unitMap u with
                | None =>
                    inl (errorString
                           ("time: unknown unit " +:+ quote u +:+
                            " in duration " +:+ quote orig))
                | Some unit =>
                    if 2 ^ 63 / unit <? v then inl (invalid orig)
                    else
                      let v := v * unit in
                      let v :=
                        if 0 <? f then
                          v + uint64 (fmul (float64 f)
                                        (fdiv (float64 unit) scale))
                        else v in
                      if (0 <? f) && (2 ^ 63 <? v) then inl (invalid orig)
                      else
                        let d := (d + v) mod 2 ^ 64 in
                        if 2 ^ 63 <? d then inl (invalid orig)
                        else terms fuel orig s3 d
                end
        end
  end.

Definition ParseDuration (orig : string) : error + Duration :=
  let '(neg, s) :=
    match orig with
    | String c rest =>
        if decide (c = "-"%char) then (true, rest)
        else if decide (c = "+"%char) then (false, rest)
        else (false, orig)
    | EmptyString => (false, orig)
    end in
  if decide (s = "0") then inr 0
  else if decide (s = "") then inl (invalid orig)
  else
    match terms (String.length s) orig s 0 with
    | inl err => inl err
    | inr d =>
        if neg then inr (- d)
        else if 2 ^ 63 - 1 <? d then inl (invalid orig)
        else inr d
    end.

End time.

(** ** Concrete worlds and stages

    A test bench in the manner of a local broker: the serializer returns
    the content, maps are ranged over in their listing order, the dialer
    refuses a negative timeout and otherwise reaches a server that
    supports headers or not as asked, and the client behaves as [nats.go]
    does before it publishes: it reports an expired context, refuses an
    empty subject, and otherwise hands the request to the responder. *)
Module lab.

Definition ErrBadSubject : error := errorString "nats: invalid subject".

Definition client (respond : nats.Msg → error + nats.Msg)
    (c : nats.Conn) (ctx : Context) (m : nats.Msg) : error + nats.Msg :=
  let expired := match ctx with
                 | Some d => d <=? 0
                 | None => false
                 end in
  if expired then inl DeadlineExceeded
  else if decide (nats.Subject m = "") then inl ErrBadSubject
  else respond m.

Definition ErrBadTimeout : error := errorString "nats: timeout invalid".

(** The dialer: it refuses a negative timeout and otherwise reaches a
    server that supports headers or not, as asked. *)
Definition dial (headersSupported : bool) (urls : string)
    (opts : list nats.Option_) : error + nats.Conn :=
  match nats.timeoutOf opts with
  | Some d =>
      if d <? 0 then inl ErrBadTimeout
      else inr {| nats.connId := 1; nats.infoHeaders := headersSupported |}
  | None => inr {| nats.connId := 1; nats.infoHeaders := headersSupported |}
  end.

Definition world (headersSupported : bool)
    (respond : nats.Msg → error + nats.Msg)
    (constraint : bytes → option error) : World :=
  {| AsBytes := λ m, inr (service.content m);
     rangeHeaders := map_to_list;
     rangeHeaders_perm := λ m, reflexivity (map_to_list m);
     rangeMeta := map_to_list;
     rangeMeta_perm := λ m, reflexivity (map_to_list m);
     RequestMsgWithContext := client respond;
     recordConstraint := constraint;
     Connect := dial headersSupported;
     ParseDuration := time.ParseDuration;
     authConfToOptions := λ a _,
       match a with nats.AuthConfig n => [nats.AuthOption n] end |}.

(** A responder that echoes the request. *)
Definition echo (m : nats.Msg) : error + nats.Msg := inr m.

(** A responder that never answers. *)
Definition silent (m : nats.Msg) : error + nats.Msg := inl DeadlineExceeded.

Definition unconstrained (b : bytes) : option error := None.

(** Templates: a literal; one that insists on a metadata key, in the
    manner of [meta(k).not_null()], and fails on a record without it; and
    one that fails on every record, in the manner of [throw]. *)
Definition literal (s : string) : service.InterpolatedString :=
  {| service.TryString := λ _, inr s |}.

Definition required (k : string) : service.InterpolatedString :=
  {| service.TryString := λ m,
       match service.metadata m !! k with
       | Some v => inr v
       | None => inl (errorString "value is null")
       end |}.

Definition broken : service.InterpolatedString :=
  {| service.TryString := λ _, inl (errorString "failed to evaluate") |}.

(** A filter that selects nothing. *)
Definition nothing : service.MetadataFilter :=
  {| service.Match := λ _, false |}.

Definition only (k : string) : service.MetadataFilter :=
  {| service.Match := λ k', bool_decide (k' = k) |}.

Definition config (subject : service.InterpolatedString)
    (headers : gmap string service.InterpolatedString) (timeout : string)
  : service.ParsedConfig :=
  {| service.FieldStringList_urls := inr ["nats://127.0.0.1:4222"];
     service.FieldInterpolatedString_subject := inr subject;
     service.Contains_inbox_prefix := false;
     service.FieldString_inbox_prefix := inr "";
     service.FieldInterpolatedStringMap_headers := inr headers;
     service.Contains_metadata := false;
     service.FieldMetadataFilter_metadata := inr nothing;
     service.FieldString_timeout := inr timeout;
     service.FieldTLSToggled_tls := inr (nats.TLSConfig "", false);
     service.AuthFromParsedConfig_auth := inr (nats.AuthConfig "none") |}.

Definition resources : service.Resources :=
  {| service.Label := "stage";
     service.Logger_ := nats.LoggerOf "log";
     service.FS_ := nats.FSOf "os" |}.

Definition conn (headersSupported : bool) : nats.Conn :=
  {| nats.connId := 1; nats.infoHeaders := headersSupported |}.

(** A connected stage, as the constructor leaves it, with the metadata
    filter a test may set. *)
Definition stage (subject : service.InterpolatedString)
    (headers : gmap string service.InterpolatedString)
    (filter : option service.MetadataFilter) (timeout : Duration)
    (c : option nats.Conn) : State :=
  {| self :=
       {| label := "stage"; urls := "nats://127.0.0.1:4222";
          headers := headers; metaFilter := filter; subject := subject;
          inboxPrefix := ""; timeout := timeout; tlsConf := None;
          authConf := nats.AuthConfig "none"; log := nats.LoggerOf "log";
          fs := nats.FSOf "os"; natsConn := c;
          connMut := {| readers := 0; writer := false |} |};
     wire := [] |}.

Definition record (body : bytes) (md : list (string * string))
  : service.Message :=
  {| service.content := body; service.metadata := list_to_map md |}.

Definition echoWorld : World := world true echo unconstrained.
Definition silentWorld : World := world true silent unconstrained.

Definition threeSeconds : Duration := 3000000000.

(** A stage on a connection with header support, whose one explicit
    header has the name of the metadata key its filter selects. *)
Definition shop : State :=
  stage (literal "orders.42") {[ "trace_id" := literal "from-template" ]}
    (Some (only "trace_id")) threeSeconds (Some (conn true)).

(** The same configuration with a header template that cannot evaluate,
    on a connection without header support. *)
Definition plain : State :=
  stage (literal "orders.42") {[ "Timestamp" := broken ]}
    (Some (only "trace_id")) threeSeconds (Some (conn false)).

(** A stage whose explicit header insists on a metadata key. *)
Definition stamped : State :=
  stage (literal "orders.42") {[ "Timestamp" := required "Timestamp" ]}
    None threeSeconds (Some (conn true)).

(** A stage whose subject template resolves to the empty string. *)
Definition anonymous : State :=
  stage (literal "") ∅ None threeSeconds (Some (conn true)).

(** The stages the constructor returns for the subject [orders.42], no
    header, and the timeout strings [3s] and [0s]. *)
Definition fresh : State :=
  stage (literal "orders.42") ∅ None threeSeconds (Some (conn true)).

Definition idle : State :=
  stage (literal "orders.42") ∅ None 0 (Some (conn true)).

Definition order : service.Message :=
  record "order-42" [("trace_id", "abc123")].

(** The requests these stages make for these records. *)
Definition orderRequest : nats.Msg :=
  {| nats.Subject := "orders.42";
     nats.Header_ := {[ "trace_id" := ["from-template"; "abc123"] ]};
     nats.Data := "order-42";
     nats.Metadata := None |}.

Definition bareRequest (subject : string) (data : bytes) : nats.Msg :=
  {| nats.Subject := subject; nats.Header_ := ∅; nats.Data := data;
     nats.Metadata := None |}.

Definition orderReply : service.Message :=
  record "order-42" [("nats_subject", "orders.42")].

(** A responder behind a connection that drops. *)
Definition ErrConnectionClosed : error :=
  errorString "nats: connection closed".

Definition dropped (m : nats.Msg) : error + nats.Msg :=
  inl ErrConnectionClosed.

Definition droppedWorld : World := world true dropped unconstrained.

(** A pipeline whose records cannot be serialized. *)
Definition unencodable : World :=
  {| AsBytes := λ _, inl (errorString "cannot encode");
     rangeHeaders := map_to_list;
     rangeHeaders_perm := λ m, reflexivity (map_to_list m);
     rangeMeta := map_to_list;
     rangeMeta_perm := λ m, reflexivity (map_to_list m);
     RequestMsgWithContext := client echo;
     recordConstraint := unconstrained;
     Connect := dial true;
     ParseDuration := time.ParseDuration;
     authConfToOptions := λ a _,
       match a with nats.AuthConfig n => [nats.AuthOption n] end |}.

(** A network on which no server answers the dialer. *)
Definition ErrNoServers : error :=
  errorString "nats: no servers available for connection".

Definition unreachable : World :=
  {| AsBytes := λ m, inr (service.content m);
     rangeHeaders := map_to_list;
     rangeHeaders_perm := λ m, reflexivity (map_to_list m);
     rangeMeta := map_to_list;
     rangeMeta_perm := λ m, reflexivity (map_to_list m);
     RequestMsgWithContext := client echo;
     recordConstraint := unconstrained;
     Connect := λ _ _, inl ErrNoServers;
     ParseDuration := time.ParseDuration;
     authConfToOptions := λ a _,
       match a with nats.AuthConfig n => [nats.AuthOption n] end |}.

(** The configuration of [fresh], and the options its dial receives. *)
Definition freshConfig : service.ParsedConfig :=
  config (literal "orders.42") ∅ "3s".

Definition freshOptions : list nats.Option_ :=
  [nats.Name "stage"; nats.AuthOption "none";
   nats.ErrorHandler (nats.LoggerOf "log"); nats.Timeout threeSeconds].

Definition freshUrls : string := "nats://127.0.0.1:4222".

(** A configuration whose timeout is no duration. *)
Definition badTimeout : service.ParsedConfig :=
  config (literal "orders.42") ∅ "soon".

(** A stage whose explicit header has a name the filter does not select. *)
Definition typed : State :=
  stage (literal "orders.42")
    {[ "Content-Type" := literal "application/json" ]}
    (Some (only "trace_id")) threeSeconds (Some (conn true)).

Definition typedRequest : nats.Msg :=
  {| nats.Subject := "orders.42";
     nats.Header_ := {[ "Content-Type" := ["application/json"];
                        "trace_id" := ["abc123"] ]};
     nats.Data := "order-42";
     nats.Metadata := None |}.

(** A configuration whose one explicit header has the name of the
    metadata key that its filter selects, the stage the constructor
    returns for it, and the request of that stage for [order]. *)
Definition tracedConfig : service.ParsedConfig :=
  {| service.FieldStringList_urls := inr ["nats://127.0.0.1:4222"];
     service.FieldInterpolatedString_subject := inr (literal "orders.42");
     service.Contains_inbox_prefix := false;
     service.FieldString_inbox_prefix := inr "";
     service.FieldInterpolatedStringMap_headers :=
       inr {[ "trace_id" := literal "from-template" ]};
     service.Contains_metadata := true;
     service.FieldMetadataFilter_metadata := inr (only "trace_id");
     service.FieldString_timeout := inr "3s";
     service.FieldTLSToggled_tls := inr (nats.TLSConfig "", false);
     service.AuthFromParsedConfig_auth := inr (nats.AuthConfig "none") |}.

Definition traced : State :=
  stage (literal "orders.42") {[ "trace_id" := literal "from-template" ]}
    None threeSeconds (Some (conn true)).

Definition tracedRequest : nats.Msg :=
  {| nats.Subject := "orders.42";
     nats.Header_ := {[ "trace_id" := ["from-template"] ]};
     nats.Data := "order-42";
     nats.Metadata := None |}.

(** A stage two of whose explicit headers fail on every record. *)
Definition twice : State :=
  stage (literal "orders.42")
    {[ "X-First" := broken; "X-Second" := broken ]}
    None threeSeconds (Some (conn true)).

(** A stage with two explicit headers, one of which insists on a metadata
    key. *)
Definition mixed : State :=
  stage (literal "orders.42")
    {[ "Content-Type" := literal "application/json";
       "Timestamp" := required "Timestamp" ]}
    None threeSeconds (Some (conn true)).

(** A configuration with TLS switched on and a reply inbox of its own,
    and the options its dial receives. *)
Definition secureConfig : service.ParsedConfig :=
  {| service.FieldStringList_urls :=
       inr ["nats://a.example:4222"; "nats://b.example:4222"];
     service.FieldInterpolatedString_subject := inr (literal "orders.42");
     service.Contains_inbox_prefix := true;
     service.FieldString_inbox_prefix := inr "_INBOX_joe";
     service.FieldInterpolatedStringMap_headers := inr ∅;
     service.Contains_metadata := false;
     service.FieldMetadataFilter_metadata := inr nothing;
     service.FieldString_timeout := inr "300ms";
     service.FieldTLSToggled_tls := inr (nats.TLSConfig "ca.pem", true);
     service.AuthFromParsedConfig_auth := inr (nats.AuthConfig "nkey") |}.

Definition secureUrls : string :=
  "nats://a.example:4222,nats://b.example:4222".

Definition secureOptions : list nats.Option_ :=
  [nats.Secure (nats.TLSConfig "ca.pem");
   nats.CustomInboxPrefix "_INBOX_joe";
   nats.Name "stage"; nats.AuthOption "nkey";
   nats.ErrorHandler (nats.LoggerOf "log"); nats.Timeout 300000000].

End lab.

(** ** Vocabulary of the statements *)

Section Vocabulary.

Context `{World}.

(** The context under which [Process] issues its request. *)
Definition callContext (ctx : Context) (s : State) : Context :=
  WithTimeout ctx (timeout (self s)).

(** How [Process] ends once the client has answered the request [m]:
    lines 205-212. *)
Definition answer (c : nats.Conn) (callCtx : Context) (m : nats.Msg)
  : result service.MessageBatch :=
  match RequestMsgWithContext c callCtx m with
  | inl err => Failed err
  | inr resp =>
      match convertMessage resp with
      | inl err => Failed err
      | inr out => Done [out]
      end
  end.

(** [m] is a message [Process] may hand to the client for the record
    [msg] on the stage [r] connected through [c]. *)
Definition Outbound (r : requestReplyProcessor) (msg : service.Message)
    (c : nats.Conn) (m : nats.Msg) : Prop :=
  natsConn r = Some c ∧
  service.TryString (subject r) msg = inr (nats.Subject m) ∧
  AsBytes msg = inr (nats.Data m) ∧
  nats.Metadata m = None ∧
  if nats.infoHeaders c then
    ∃ h, addHeaders (rangeHeaders (headers r)) msg ∅ = inr h ∧
         nats.Header_ m = Walk (metaFilter r) msg nats.Add h
  else nats.Header_ m = ∅.

(** The ways [Process] ends before it reaches the client: lines 177-200. *)
Inductive Rejected (r : requestReplyProcessor) (msg : service.Message)
  : result service.MessageBatch → Prop :=
| RejectedSubject err :
    service.TryString (subject r) msg = inl err →
    Rejected r msg (Failed err)
| RejectedBytes subj err :
    service.TryString (subject r) msg = inr subj →
    AsBytes msg = inl err →
    Rejected r msg (Failed err)
| RejectedNilConn subj data :
    service.TryString (subject r) msg = inr subj →
    AsBytes msg = inr data →
    natsConn r = None →
    Rejected r msg Panicked
| RejectedHeader subj data c err :
    service.TryString (subject r) msg = inr subj →
    AsBytes msg = inr data →
    natsConn r = Some c →
    nats.infoHeaders c = true →
    addHeaders (rangeHeaders (headers r)) msg ∅ = inl err →
    Rejected r msg (Failed err).

(** The events a call appended to the log. *)
Definition appended (before after : State) (evs : list event) : Prop :=
  wire after = wire before ++ evs.

(** The values stored under [k] in a list of pairs, in order. *)
Definition collect (k : string) (l : list (string * string)) : list string :=
  (List.filter (λ kv, bool_decide (kv.1 = k)) l).*2.

(** The value of a template that evaluates. *)
Definition evaluated (msg : service.Message)
    (v : service.InterpolatedString) : option string :=
  match service.TryString v msg with
  | inr str => Some str
  | inl _ => None
  end.

(** The explicit headers that evaluate, with their values. *)
Definition resolved (msg : service.Message)
    (kvs : list (string * service.InterpolatedString))
  : list (string * string) :=
  omap (λ kv, (λ str, (kv.1, str)) <$> evaluated msg kv.2) kvs.

(** What the explicit headers contribute under the key [k]. *)
Definition templated (r : requestReplyProcessor) (msg : service.Message)
    (k : string) : list string :=
  match headers r !! k with
  | Some v =>
      match service.TryString v msg with
      | inr str => [str]
      | inl _ => []
      end
  | None => []
  end.

(** What the filtered metadata contributes under the key [k]. *)
Definition selected (r : requestReplyProcessor) (msg : service.Message)
    (k : string) : list string :=
  match metaFilter r with
  | Some flt =>
      if service.Match flt k then option_list (service.metadata msg !! k)
      else []
  | None => []
  end.

(** A configuration one of whose fields the constructor cannot read. *)
Definition Malformed (conf : service.ParsedConfig) : Prop :=
  (∃ err, service.FieldStringList_urls conf = inl err) ∨
  (∃ err, service.FieldInterpolatedString_subject conf = inl err) ∨
  (service.Contains_inbox_prefix conf = true ∧
   ∃ err, service.FieldString_inbox_prefix conf = inl err) ∨
  (∃ err, service.FieldInterpolatedStringMap_headers conf = inl err) ∨
  (∃ err, service.FieldString_timeout conf = inl err) ∨
  (∃ str err, service.FieldString_timeout conf = inr str ∧
              ParseDuration str = inl err) ∨
  (∃ err, service.FieldTLSToggled_tls conf = inl err) ∨
  (∃ err, service.AuthFromParsedConfig_auth conf = inl err).

(** The client refuses a request without a subject, as [nats.go] does
    before it publishes ([nats: invalid subject]). *)
Definition RefusesEmptySubject : Prop :=
  ∀ c callCtx m,
    nats.Subject m = "" → ∃ err, RequestMsgWithContext c callCtx m = inl err.

(** The dialer refuses a negative timeout, as [nats.go] does
    ([nats: timeout invalid]). *)
Definition RefusesNegativeTimeout : Prop :=
  ∀ u opts d,
    nats.timeoutOf opts = Some d → d < 0 → ∃ err, Connect u opts = inl err.

(** The lock as the constructor leaves it. *)
Definition unlocked : RWMutex := {| readers := 0; writer := false |}.

End Vocabulary.

(** * Properties *)

Example ParseDuration_3s : time.ParseDuration "3s" = inr 3000000000.
Proof. reflexivity. Qed.

Example ParseDuration_0s : time.ParseDuration "0s" = inr 0.
Proof. reflexivity. Qed.

Example ParseDuration_neg : time.ParseDuration "-1.5h" = inr (-5400000000000).
Proof. reflexivity. Qed.

Example ParseDuration_mixed : time.ParseDuration "2h45m" = inr 9900000000000.
Proof. reflexivity. Qed.

Example ParseDuration_third :
  time.ParseDuration "0.3333333333333333333h" = inr 1200000000000.
Proof. vm_compute. reflexivity. Qed.

Example ParseDuration_fraction :
  time.ParseDuration "0.830103483285477580700h" = inr 2988372539827.
Proof. vm_compute. reflexivity. Qed.

Example ParseDuration_least :
  time.ParseDuration "-2562047h47m16.854775808s" = inr (- 2 ^ 63).
Proof. vm_compute. reflexivity. Qed.

Example ParseDuration_overflow :
  time.ParseDuration "9223372036854775808ns" =
  inl (time.invalid "9223372036854775808ns").
Proof. vm_compute. reflexivity. Qed.

Example ParseDuration_bare : time.ParseDuration "3" =
  inl (errorString ("time: missing unit in duration " +:+ time.quote "3")).
Proof. reflexivity. Qed.

Ltac monad :=
  repeat (unfold mbind, M_bind, mret, M_ret, fail, panic, this, update, emit,
            try, defer in *; simpl in *).

Section Properties.

Context `{World}.

(** *** The lock *)

Lemma RUnlock_RLock p : RUnlock (RLock p) = p.
Proof. destruct p as [? ? ? ? ? ? ? ? ? ? ? ? [? ?]]. reflexivity. Qed.

Lemma Unlock_Lock p : writer (connMut p) = false → Unlock (Lock p) = p.
Proof.
  destruct p as [? ? ? ? ? ? ? ? ? ? ? ? [? ?]]. simpl.
  intros ->. reflexivity.
Qed.

Lemma State_eta s : {| self := self s; wire := wire s |} = s.
Proof. destruct s. reflexivity. Qed.

(** *** The shape of every run of [Process] *)

Lemma Process_cases ctx msg s :
  ∃ res evs,
    Process ctx msg s = (res, {| self := self s; wire := wire s ++ evs |}) ∧
    ((evs = [] ∧ Rejected (self s) msg res) ∨
     ∃ c m, Outbound (self s) msg c m ∧
            evs = [Requested c (callContext ctx s) m] ∧
            res = answer c (callContext ctx s) m).
Proof.
  unfold Process, HeadersSupported, RequestMsgWithContext_, callContext,
    answer, Outbound.
  monad.
  destruct (service.TryString (subject (self s)) msg) as [e|subj] eqn:Hs;
    monad.
  { exists (Failed e), []. rewrite RUnlock_RLock, app_nil_r.
    eauto using Rejected. }
  destruct (AsBytes msg) as [e|data] eqn:Hd; monad.
  { exists (Failed e), []. rewrite RUnlock_RLock, app_nil_r.
    eauto using Rejected. }
  destruct (natsConn (self s)) as [c|] eqn:Hc; monad.
  2:{ exists Panicked, []. rewrite RUnlock_RLock, app_nil_r.
      eauto using Rejected. }
  destruct (nats.infoHeaders c) eqn:Hh; monad.
  - destruct (addHeaders (rangeHeaders (headers (self s))) msg ∅)
      as [e|h] eqn:Ha; monad.
    { exists (Failed e), []. rewrite RUnlock_RLock, app_nil_r.
      eauto using Rejected. }
    set (m := nats.withHeader (nats.withData (nats.NewMsg subj) data)
                (Walk (metaFilter (self s)) msg nats.Add h)).
    set (callCtx := WithTimeout ctx (timeout (self s))).
    exists (answer c callCtx m), [Requested c callCtx m]. split.
    + unfold answer.
      destruct (RequestMsgWithContext c callCtx m) as [e|resp]; simpl;
        [|destruct (convertMessage resp); simpl];
        rewrite RUnlock_RLock; reflexivity.
    + right. exists c, m. rewrite Hh. repeat split; eauto.
  - set (m := nats.withData (nats.NewMsg subj) data).
    set (callCtx := WithTimeout ctx (timeout (self s))).
    exists (answer c callCtx m), [Requested c callCtx m]. split.
    + unfold answer.
      destruct (RequestMsgWithContext c callCtx m) as [e|resp]; simpl;
        [|destruct (convertMessage resp); simpl];
        rewrite RUnlock_RLock; reflexivity.
    + right. exists c, m. rewrite Hh. repeat split; eauto.
Qed.

Lemma Rejected_not_Done r msg res :
  Rejected r msg res → ∀ b, res ≠ Done b.
Proof. intros Hr b. destruct Hr; discriminate. Qed.

Lemma Outbound_unique r msg c c' m m' :
  Outbound r msg c m → Outbound r msg c' m' → c = c' ∧ m = m'.
Proof.
  intros (Hc & Hs & Hd & Hm & Hh) (Hc' & Hs' & Hd' & Hm' & Hh').
  assert (c = c') as <- by congruence. split; [done|].
  assert (nats.Header_ m = nats.Header_ m') as Hhdr.
  { destruct (nats.infoHeaders c); [|congruence].
    destruct Hh as (h & Hh1 & ->), Hh' as (h' & Hh1' & ->). congruence. }
  destruct m, m'; simpl in *. congruence.
Qed.

Lemma Outbound_not_Rejected r msg c m res :
  Outbound r msg c m → Rejected r msg res → False.
Proof.
  intros (Hc & Hs & Hd & Hm & Hh) Hr.
  destruct Hr as [e He|subj e _ He|subj data _ _ He|subj data c' e _ _ Hc' Hi He];
    try congruence.
  assert (c = c') as <- by congruence. rewrite Hi in Hh.
  destruct Hh as (h & Hh & _). congruence.
Qed.

(** A message the stage can send is sent, once, and the client's answer
    decides the result. *)
Lemma Process_outbound ctx msg s c m :
  Outbound (self s) msg c m →
  Process ctx msg s =
    (answer c (callContext ctx s) m,
     {| self := self s;
        wire := wire s ++ [Requested c (callContext ctx s) m] |}).
Proof.
  intros Ho. destruct (Process_cases ctx msg s) as (res & evs & -> & Hc).
  destruct Hc as [[_ Hr]|(c' & m' & Ho' & -> & ->)].
  - destruct (Outbound_not_Rejected _ _ _ _ _ Ho Hr).
  - destruct (Outbound_unique _ _ _ _ _ _ Ho Ho') as [<- <-]. reflexivity.
Qed.

(** A request in the log of a call is the one request of that call. *)
Lemma Process_issued ctx msg s c callCtx m :
  appended s (Process ctx msg s).2 [Requested c callCtx m] →
  Outbound (self s) msg c m ∧ callCtx = callContext ctx s ∧
  (Process ctx msg s).1 = answer c callCtx m.
Proof.
  unfold appended.
  destruct (Process_cases ctx msg s) as (res & evs & -> & Hc). simpl.
  intros Hw%app_inv_head.
  destruct Hc as [[-> _]|(c' & m' & Ho' & -> & ->)]; [discriminate|].
  injection Hw as <- <- <-. done.
Qed.

(** A call that was turned away left the log as it was. *)
Lemma Process_rejected ctx msg s res :
  Rejected (self s) msg res → Process ctx msg s = (res, s).
Proof.
  intros Hr. destruct (Process_cases ctx msg s) as (res' & evs & -> & Hc).
  destruct Hc as [[-> Hr']|(c' & m' & Ho' & -> & ->)].
  - rewrite app_nil_r, State_eta. f_equal.
    destruct Hr, Hr'; congruence.
  - destruct (Outbound_not_Rejected _ _ _ _ _ Ho' Hr).
Qed.

(** *** Headers *)

Lemma Add_lookup key value (h : nats.Header) k :
  nats.Add key value h !!! k =
  if decide (key = k) then h !!! k ++ [value] else h !!! k.
Proof.
  unfold nats.Add. destruct (decide (key = k)) as [->|Hne].
  - apply lookup_total_insert_eq.
  - by apply lookup_total_insert_ne.
Qed.

Lemma collect_cons k k' v l :
  collect k ((k', v) :: l) =
  if decide (k' = k) then v :: collect k l else collect k l.
Proof.
  unfold collect. simpl. destruct (decide (k' = k)).
  - by rewrite bool_decide_eq_true_2.
  - by rewrite bool_decide_eq_false_2.
Qed.

Lemma foldl_Add_lookup (l : list (string * string)) (h : nats.Header) k :
  foldl (λ a kv, nats.Add kv.1 kv.2 a) h l !!! k = h !!! k ++ collect k l.
Proof.
  revert h. induction l as [|[k' v'] l IH]; intros h; simpl.
  - by rewrite app_nil_r.
  - rewrite IH, Add_lookup, collect_cons.
    destruct (decide (k' = k)); [|done]. by rewrite <- app_assoc.
Qed.

(** Under distinct keys, a key collects at most the one value that the
    map of the list stores for it. *)
Lemma collect_omap {A} (g : string → A → option string)
    (l : list (string * A)) k :
  NoDup l.*1 →
  collect k (omap (λ kv, (λ str, (kv.1, str)) <$> g kv.1 kv.2) l) =
  match (list_to_map l : gmap string A) !! k with
  | Some a => option_list (g k a)
  | None => []
  end.
Proof.
  induction l as [|[k' a] l IH]; simpl; intros Hnd.
  - by rewrite lookup_empty.
  - apply NoDup_cons in Hnd as [Hk' Hnd]. specialize (IH Hnd).
    destruct (decide (k' = k)) as [->|Hne].
    + rewrite lookup_insert_eq.
      apply not_elem_of_list_to_map_1 in Hk'. rewrite Hk' in IH.
      destruct (g k a) as [str|]; simpl; [|done].
      rewrite collect_cons, decide_True by done. f_equal. exact IH.
    + rewrite lookup_insert_ne by done. rewrite <- IH.
      destruct (g k' a) as [str|]; simpl; [|done].
      rewrite collect_cons, decide_False by done. reflexivity.
Qed.

Lemma addHeaders_inr kvs msg h h' :
  addHeaders kvs msg h = inr h' →
  h' = foldl (λ a kv, nats.Add kv.1 kv.2 a) h (resolved msg kvs).
Proof.
  revert h. induction kvs as [|[k v] kvs IH]; simpl; intros h Ha.
  - congruence.
  - unfold resolved, evaluated. simpl.
    destruct (service.TryString v msg) as [e|str]; [discriminate|].
    simpl. by apply IH.
Qed.

Lemma addHeaders_inl kvs msg h e :
  addHeaders kvs msg h = inl e →
  ∃ k v err, (k, v) ∈ kvs ∧ service.TryString v msg = inl err ∧
             e = headerError k err.
Proof.
  revert h. induction kvs as [|[k v] kvs IH]; simpl; intros h Ha.
  - discriminate.
  - destruct (service.TryString v msg) as [err|str] eqn:Hv.
    + exists k, v, err. split; [left|]. split; congruence.
    + destruct (IH _ Ha) as (k' & v' & err & Hin & Hv' & ->).
      exists k', v', err. split; [by right|done].
Qed.

Lemma addHeaders_inl_first kvs msg h e :
  addHeaders kvs msg h = inl e →
  ∃ pre k v post err,
    kvs = pre ++ (k, v) :: post ∧
    (∀ k' v', (k', v') ∈ pre →
              ∃ str, service.TryString v' msg = inr str) ∧
    service.TryString v msg = inl err ∧
    e = headerError k err.
Proof.
  revert h. induction kvs as [|[k v] kvs IH]; simpl; intros h Ha.
  - discriminate.
  - destruct (service.TryString v msg) as [err|str] eqn:Hv.
    + exists [], k, v, kvs, err. split; [done|]. split; [|split; congruence].
      intros k' v' Hin. by apply elem_of_nil in Hin.
    + destruct (IH _ Ha) as (pre & k' & v' & post & err & -> & Hpre & Hv' & ->).
      exists ((k, v) :: pre), k', v', post, err. split; [done|].
      split; [|done]. intros k'' v'' Hin.
      apply elem_of_cons in Hin as [[= -> ->]|Hin]; [eauto|].
      by apply (Hpre k'').
Qed.

Lemma addHeaders_all kvs msg h :
  (∀ k v, (k, v) ∈ kvs → ∃ str, service.TryString v msg = inr str) →
  ∃ h', addHeaders kvs msg h = inr h'.
Proof.
  intros Hall. destruct (addHeaders kvs msg h) as [e|h'] eqn:Ha; [|eauto].
  apply addHeaders_inl in Ha as (k & v & err & Hin & Hv & _).
  destruct (Hall _ _ Hin) as [str Hstr]. congruence.
Qed.

Lemma addHeaders_some kvs msg h k v err :
  (k, v) ∈ kvs → service.TryString v msg = inl err →
  ∃ e, addHeaders kvs msg h = inl e.
Proof.
  revert h. induction kvs as [|[k' v'] kvs IH]; intros h Hin Hv.
  - by apply elem_of_nil in Hin.
  - simpl. destruct (service.TryString v' msg) as [e'|str] eqn:Hv'; [eauto|].
    apply elem_of_cons in Hin as [Heq|Hin]; [|by apply IH].
    injection Heq as <- <-. congruence.
Qed.

Lemma elem_of_rangeHeaders m k v :
  (k, v) ∈ rangeHeaders m ↔ m !! k = Some v.
Proof. by rewrite rangeHeaders_perm, elem_of_map_to_list. Qed.

Lemma NoDup_rangeHeaders m : NoDup (rangeHeaders m).*1.
Proof. rewrite rangeHeaders_perm. apply NoDup_fst_map_to_list. Qed.

Lemma NoDup_rangeMeta m : NoDup (rangeMeta m).*1.
Proof. rewrite rangeMeta_perm. apply NoDup_fst_map_to_list. Qed.

Lemma resolved_collect r msg k :
  collect k (resolved msg (rangeHeaders (headers r))) = templated r msg k.
Proof.
  unfold resolved, templated.
  rewrite (collect_omap (λ _, evaluated msg)) by apply NoDup_rangeHeaders.
  rewrite (list_to_map_proper _ (map_to_list (headers r)))
    by auto using NoDup_rangeHeaders, rangeHeaders_perm.
  rewrite list_to_map_to_list. unfold evaluated.
  destruct (headers r !! k) as [v|]; [|done].
  by destruct (service.TryString v msg).
Qed.

Lemma filter_omap (p : string → bool) (l : list (string * string)) :
  List.filter (λ kv, p kv.1) l =
  omap (λ kv, (λ str, (kv.1, str)) <$>
              (λ k v, if p k then Some v else None) kv.1 kv.2) l.
Proof.
  induction l as [|[k v] l IH]; simpl; [done|].
  destruct (p k); simpl; by rewrite IH.
Qed.

Lemma collect_filter (p : string → bool) (l : list (string * string)) k :
  NoDup l.*1 →
  collect k (List.filter (λ kv, p kv.1) l) =
  match (list_to_map l : gmap string string) !! k with
  | Some v => if p k then [v] else []
  | None => []
  end.
Proof.
  intros Hnd. rewrite filter_omap.
  pose proof (collect_omap (λ k v, if p k then Some v else None) l k Hnd)
    as Hc.
  simpl in Hc. etransitivity; [exact Hc|].
  destruct (list_to_map l !! k); [|done]. by destruct (p k).
Qed.

Lemma Walk_lookup r msg (h : nats.Header) k :
  Walk (metaFilter r) msg nats.Add h !!! k = h !!! k ++ selected r msg k.
Proof.
  unfold Walk, selected. destruct (metaFilter r) as [flt|].
  2:{ by rewrite app_nil_r. }
  rewrite foldl_Add_lookup. f_equal.
  rewrite collect_filter by apply NoDup_rangeMeta.
  rewrite (list_to_map_proper _ (map_to_list (service.metadata msg)))
    by auto using NoDup_rangeMeta, rangeMeta_perm.
  rewrite list_to_map_to_list.
  destruct (service.metadata msg !! k) as [v|]; simpl;
    by destruct (service.Match flt k).
Qed.

(** On a connection with header support the message carries, under every
    key, first what the explicit headers give and then what the selected
    metadata gives. *)
Lemma Outbound_header r msg c m k :
  Outbound r msg c m → nats.infoHeaders c = true →
  nats.Header_ m !!! k = templated r msg k ++ selected r msg k.
Proof.
  intros (_ & _ & _ & _ & Hh) Hi. rewrite Hi in Hh.
  destruct Hh as (h & Ha & ->). apply addHeaders_inr in Ha as ->.
  rewrite Walk_lookup, foldl_Add_lookup, resolved_collect.
  by rewrite lookup_total_empty.
Qed.

(** Without header support the message carries no header. *)
Lemma Outbound_bare r msg c m :
  Outbound r msg c m → nats.infoHeaders c = false →
  m = nats.withData (nats.NewMsg (nats.Subject m)) (nats.Data m).
Proof.
  intros (_ & _ & _ & Hm & Hh) Hi. rewrite Hi in Hh.
  destruct m; simpl in *. unfold nats.withData, nats.NewMsg. simpl.
  congruence.
Qed.

(** When the subject and the explicit headers evaluate, the record
    serializes and the stage is connected, there is a message to send. *)
Lemma Outbound_exists msg s c subj data :
  natsConn (self s) = Some c →
  service.TryString (subject (self s)) msg = inr subj →
  AsBytes msg = inr data →
  (∀ k v, headers (self s) !! k = Some v →
          ∃ str, service.TryString v msg = inr str) →
  ∃ m, nats.Subject m = subj ∧ nats.Data m = data ∧
       Outbound (self s) msg c m.
Proof.
  intros Hc Hs Hd Hall.
  unfold Outbound. destruct (nats.infoHeaders c) eqn:Hi.
  - destruct (addHeaders_all (rangeHeaders (headers (self s))) msg ∅)
      as [h Ha].
    { intros k v Hin%elem_of_rangeHeaders. eauto. }
    exists (nats.withHeader (nats.withData (nats.NewMsg subj) data)
              (Walk (metaFilter (self s)) msg nats.Add h)).
    simpl. eauto 10.
  - exists (nats.withData (nats.NewMsg subj) data). simpl. eauto 10.
Qed.

(** *** [Close] and [connect] *)

Lemma Close_run ctx s :
  Close ctx s =
    (Done tt,
     {| self := Unlock (set_natsConn None (self s));
        wire := wire s ++ match natsConn (self s) with
                          | Some c => [ConnClosed c]
                          | None => []
                          end |}).
Proof.
  unfold Close. monad.
  destruct s as [[? ? ? ? ? ? ? ? ? ? ? [c|] [? ?]] w]; monad.
  - reflexivity.
  - by rewrite app_nil_r.
Qed.

Lemma connect_run ctx s :
  let p := self s in
  let opts := connectOptions p in
  connect ctx s =
    (match Connect (urls p) opts with
     | inl err => Failed err
     | inr _ => Done tt
     end,
     {| self := Unlock (set_natsConn
                          match Connect (urls p) opts with
                          | inl _ => None
                          | inr c => Some c
                          end p);
        wire := wire s ++ [Dialed (urls p) opts] |}).
Proof.
  unfold connect. monad.
  change (connectOptions (Lock (self s))) with (connectOptions (self s)).
  destruct (Connect (urls (self s)) (connectOptions (self s))); monad;
    reflexivity.
Qed.

Lemma configure_timeout conf mgr p :
  configure conf mgr = inr p →
  ∃ str, service.FieldString_timeout conf = inr str ∧
         ParseDuration str = inr (timeout p).
Proof.
  unfold configure, mbind, sum_bind, mret, sum_ret.
  destruct (service.FieldStringList_urls conf); [discriminate|].
  destruct (service.FieldInterpolatedString_subject conf); [discriminate|].
  destruct (if service.Contains_inbox_prefix conf
            then service.FieldString_inbox_prefix conf else inr "");
    [discriminate|].
  destruct (service.FieldInterpolatedStringMap_headers conf);
    [discriminate|].
  destruct (service.FieldString_timeout conf) as [|str]; [discriminate|].
  destruct (ParseDuration str) as [|d] eqn:Hd; [discriminate|].
  destruct (service.FieldTLSToggled_tls conf) as [|[? ?]]; [discriminate|].
  destruct (service.AuthFromParsedConfig_auth conf); [discriminate|].
  intros [= <-]. exists str. simpl. eauto.
Qed.

(** *** The claims *)

(** C10. Every call of [Process], however it ends, leaves the stage as
    it found it: the connection handle, every configuration field and the
    lock are the same after the call as before. *)
Theorem Process_frame ctx msg s :
  self (Process ctx msg s).2 = self s.
Proof.
  destruct (Process_cases ctx msg s) as (res & evs & -> & _). reflexivity.
Qed.

(** C9. [Close] returns nil and leaves no connection handle; a second
    [Close] returns nil as well and changes nothing, so closing twice is
    closing once. The connection, if there was one, is closed once. *)
Theorem Close_idempotent ctx ctx' s :
  let s1 := (Close ctx s).2 in
  (Close ctx s).1 = Done tt ∧
  natsConn (self s1) = None ∧
  wire s1 = wire s ++ match natsConn (self s) with
                      | Some c => [ConnClosed c]
                      | None => []
                      end ∧
  Close ctx' s1 = (Done tt, s1).
Proof.
  rewrite Close_run. simpl. split; [done|]. split; [done|]. split; [done|].
  rewrite Close_run. simpl. by rewrite app_nil_r.
Qed.

(** C5, as the code has it. After [Close], a call of [Process] on a
    record whose subject evaluates and which serializes does not return
    an error: it panics, on the nil connection handle, at the header
    support test of line 188. *)
Theorem Process_after_Close ctx ctx' msg s subj data :
  service.TryString (subject (self s)) msg = inr subj →
  AsBytes msg = inr data →
  (Process ctx' msg (Close ctx s).2).1 = Panicked ∧
  returned (Process ctx' msg (Close ctx s).2).1 = None.
Proof.
  intros Hs Hd. rewrite Close_run. simpl.
  rewrite (Process_rejected _ _ _ Panicked); [done|].
  by apply (RejectedNilConn _ _ subj data).
Qed.

(** C2. When the request that [Process] issued ends with the deadline
    error, the deadline being that of the incoming context cut to the
    configured timeout, [Process] returns that error and a nil batch. *)
Theorem Process_timeout ctx msg s c callCtx m :
  appended s (Process ctx msg s).2 [Requested c callCtx m] →
  RequestMsgWithContext c callCtx m = inl DeadlineExceeded →
  callCtx = WithTimeout ctx (timeout (self s)) ∧
  returned (Process ctx msg s).1 = Some ([], Some DeadlineExceeded).
Proof.
  intros (_ & -> & ->)%Process_issued Hr. split; [done|].
  unfold answer. by rewrite Hr.
Qed.

(** What lines 188-200 do on a stage that has a metadata filter. On a
    connection with header support, when a key is both the name of an
    explicit header and a key the filter selects, the message sent holds
    under that key the evaluated template followed by the metadata value:
    both are there, the explicit one first. Under every key, what the
    explicit headers give comes before what the metadata gives. *)
Theorem Process_header_order ctx msg s c callCtx m k v tv flt mv :
  appended s (Process ctx msg s).2 [Requested c callCtx m] →
  nats.infoHeaders c = true →
  headers (self s) !! k = Some v →
  service.TryString v msg = inr tv →
  metaFilter (self s) = Some flt →
  service.Match flt k = true →
  service.metadata msg !! k = Some mv →
  nats.Header_ m !! k = Some [tv; mv] ∧
  ∀ k', nats.Header_ m !!! k' =
        templated (self s) msg k' ++ selected (self s) msg k'.
Proof.
  intros (Ho & _ & _)%Process_issued Hi Hk Hv Hf Hm Hmv.
  split; [|intros k'; by apply (Outbound_header _ _ c)].
  pose proof (Outbound_header _ _ _ _ k Ho Hi) as Hl.
  unfold templated, selected in Hl.
  rewrite Hk, Hv, Hf, Hm, Hmv in Hl. simpl in Hl.
  rewrite lookup_total_alt in Hl.
  destruct (nats.Header_ m !! k) as [l|]; simpl in Hl; [|discriminate].
  congruence.
Qed.

(** C4. On a connection without header support, a record whose subject
    evaluates and which serializes is sent with an empty header set,
    whatever the explicit headers and the metadata filter are and whether
    or not the templates evaluate; the result is the client's answer. *)
Theorem Process_no_header_support ctx msg s c subj data :
  natsConn (self s) = Some c →
  nats.infoHeaders c = false →
  service.TryString (subject (self s)) msg = inr subj →
  AsBytes msg = inr data →
  let m := nats.withData (nats.NewMsg subj) data in
  nats.Header_ m = ∅ ∧
  Process ctx msg s =
    (answer c (callContext ctx s) m,
     {| self := self s;
        wire := wire s ++ [Requested c (callContext ctx s) m] |}).
Proof.
  intros Hc Hi Hs Hd m. split; [done|].
  apply Process_outbound. unfold Outbound. rewrite Hi. done.
Qed.

(** C8, amended. On a connection with header support, when the record
    reaches the header step and some explicit header template fails on
    it, [Process] returns the failure of one failing template wrapped with
    the name of its header: the one that the range over the header map
    reaches first, the headers before it having evaluated. It returns no
    record, issues no request and leaves the stage unchanged. *)
Theorem Process_header_error ctx msg s c subj data k0 v0 err0 :
  natsConn (self s) = Some c →
  nats.infoHeaders c = true →
  service.TryString (subject (self s)) msg = inr subj →
  AsBytes msg = inr data →
  headers (self s) !! k0 = Some v0 →
  service.TryString v0 msg = inl err0 →
  ∃ pre k v post err,
    rangeHeaders (headers (self s)) = pre ++ (k, v) :: post ∧
    (∀ k' v', (k', v') ∈ pre →
              ∃ str, service.TryString v' msg = inr str) ∧
    headers (self s) !! k = Some v ∧
    service.TryString v msg = inl err ∧
    Process ctx msg s = (Failed (headerError k err), s) ∧
    returned (Process ctx msg s).1 = Some ([], Some (headerError k err)) ∧
    Error (headerError k err) =
      "header " +:+ k +:+ " interpolation error: " +:+ Error err ∧
    Unwrap (headerError k err) = Some err.
Proof.
  intros Hc Hi Hs Hd Hk Hv.
  apply elem_of_rangeHeaders in Hk.
  destruct (addHeaders_some _ msg ∅ _ _ _ Hk Hv) as [e Ha].
  destruct (addHeaders_inl_first _ _ _ _ Ha)
    as (pre & k & v & post & err & Hr & Hpre & Hv' & ->).
  exists pre, k, v, post, err.
  assert ((k, v) ∈ rangeHeaders (headers (self s))) as Hin.
  { rewrite Hr. apply elem_of_app. right. by left. }
  apply elem_of_rangeHeaders in Hin.
  assert (Process ctx msg s = (Failed (headerError k err), s)) as Hp.
  { apply Process_rejected. by apply (RejectedHeader _ _ subj data c). }
  rewrite Hp. done.
Qed.

(** C1. When the subject and every explicit header template evaluate,
    on a connected stage and a record that serializes, [Process] issues
    its request, carrying the resolved subject and the serialized record;
    when the client returns a reply, [Process] returns exactly one
    record, the converted reply, and never none or several. Should the
    conversion itself fail, there is no converted reply: its error is
    returned, with no record. *)
Theorem Process_reply ctx msg s c subj data :
  natsConn (self s) = Some c →
  service.TryString (subject (self s)) msg = inr subj →
  AsBytes msg = inr data →
  (∀ k v, headers (self s) !! k = Some v →
          ∃ str, service.TryString v msg = inr str) →
  ∃ m,
    nats.Subject m = subj ∧ nats.Data m = data ∧
    appended s (Process ctx msg s).2 [Requested c (callContext ctx s) m] ∧
    ∀ resp,
      RequestMsgWithContext c (callContext ctx s) m = inr resp →
      (∀ out, convertMessage resp = inr out →
              returned (Process ctx msg s).1 = Some ([out], None)) ∧
      (∀ err, convertMessage resp = inl err →
              returned (Process ctx msg s).1 = Some ([], Some err)).
Proof.
  intros Hc Hs Hd Hall.
  destruct (Outbound_exists msg s c subj data Hc Hs Hd Hall)
    as (m & Hsm & Hdm & Ho).
  exists m. rewrite (Process_outbound _ _ _ _ _ Ho). unfold appended. simpl.
  split; [done|]. split; [done|]. split; [done|].
  intros resp Hr. unfold answer. rewrite Hr.
  split; intros ? Ho'; by rewrite Ho'.
Qed.

(** The subject on its way to the client. A record whose subject
    template fails to evaluate is turned away with that error before the
    client is called; every call of the client carries exactly the string
    the subject template resolved to; and the client is called with it,
    whatever it is, once the record serializes and the headers evaluate
    on a connected stage. *)
Theorem Process_subject ctx msg s :
  (∀ err, service.TryString (subject (self s)) msg = inl err →
          Process ctx msg s = (Failed err, s)) ∧
  (∀ c callCtx m,
      appended s (Process ctx msg s).2 [Requested c callCtx m] →
      service.TryString (subject (self s)) msg = inr (nats.Subject m)) ∧
  (∀ c subj data,
      natsConn (self s) = Some c →
      service.TryString (subject (self s)) msg = inr subj →
      AsBytes msg = inr data →
      (∀ k v, headers (self s) !! k = Some v →
              ∃ str, service.TryString v msg = inr str) →
      ∃ m, nats.Subject m = subj ∧
           appended s (Process ctx msg s).2
             [Requested c (callContext ctx s) m]).
Proof.
  split; [|split].
  - intros err He. apply Process_rejected. by constructor.
  - intros c callCtx m ((_ & Hs & _) & _)%Process_issued. done.
  - intros c subj data Hc Hs Hd Hall.
    destruct (Outbound_exists msg s c subj data Hc Hs Hd Hall)
      as (m & Hsm & Hdm & Ho).
    exists m. rewrite (Process_outbound _ _ _ _ _ Ho). done.
Qed.

(** C6. With a client that refuses a request without a subject, as
    [nats.go] does before it publishes, [Process] handles successfully
    only records whose subject template resolves to a string that is not
    empty; a record whose subject resolves to the empty string gets no
    record back, and when it reaches the client the refusal of the client
    is what [Process] returns: nothing is published with an empty
    subject. *)
Theorem Process_subject_nonempty ctx msg s :
  RefusesEmptySubject →
  (∀ b, (Process ctx msg s).1 = Done b →
        ∃ subj, service.TryString (subject (self s)) msg = inr subj ∧
                subj ≠ "") ∧
  (service.TryString (subject (self s)) msg = inr "" →
   (∀ b, (Process ctx msg s).1 ≠ Done b) ∧
   ∀ c callCtx m,
     appended s (Process ctx msg s).2 [Requested c callCtx m] →
     ∃ err, RequestMsgWithContext c callCtx m = inl err ∧
            returned (Process ctx msg s).1 = Some ([], Some err)).
Proof.
  intros Hrefuse.
  assert (∀ c callCtx m,
            appended s (Process ctx msg s).2 [Requested c callCtx m] →
            nats.Subject m = "" →
            ∃ err, RequestMsgWithContext c callCtx m = inl err ∧
                   (Process ctx msg s).1 = Failed err) as Hempty.
  { intros c callCtx m (_ & _ & Hres)%Process_issued Hm.
    destruct (Hrefuse c callCtx m Hm) as [err Herr]. exists err.
    split; [done|]. rewrite Hres. unfold answer. by rewrite Herr. }
  assert (∀ b, (Process ctx msg s).1 = Done b →
               ∃ c m, appended s (Process ctx msg s).2
                        [Requested c (callContext ctx s) m] ∧
                      service.TryString (subject (self s)) msg =
                        inr (nats.Subject m)) as Hdone.
  { intros b Hb.
    destruct (Process_cases ctx msg s) as (res & evs & Hp & Hc).
    rewrite Hp in Hb |- *. simpl in Hb. subst res. unfold appended. simpl.
    destruct Hc as [[_ Hr]|(c & m & (_ & Hs & _) & -> & _)].
    - by destruct (Rejected_not_Done _ _ _ Hr b).
    - exists c, m. done. }
  split; [|intros Hs; split].
  - intros b Hb. destruct (Hdone b Hb) as (c & m & Ha & Hs).
    exists (nats.Subject m). split; [done|]. intros Hm.
    destruct (Hempty _ _ _ Ha Hm) as (err & _ & Hf). congruence.
  - intros b Hb. destruct (Hdone b Hb) as (c & m & Ha & Hs').
    assert (nats.Subject m = "") as Hm by congruence.
    destruct (Hempty _ _ _ Ha Hm) as (err & _ & Hf). congruence.
  - intros c callCtx m Ha.
    pose proof Ha as ((_ & Hs' & _) & _)%Process_issued.
    assert (nats.Subject m = "") as Hm by congruence.
    destruct (Hempty _ _ _ Ha Hm) as (err & Herr & Hf).
    exists err. split; [done|]. by rewrite Hf.
Qed.

Lemma timeoutOf_connectOptions p :
  nats.timeoutOf (connectOptions p) = Some (timeout p).
Proof. unfold connectOptions, nats.timeoutOf. by rewrite foldl_app. Qed.

(** C7, amended. With a dialer that refuses a negative timeout, as
    [nats.go] does, the timeout stored in a stage that the constructor
    returned is not negative: it is the duration that the configured
    timeout string parses to, zero included, and the stage is connected.
    A string that does not parse, or that parses to a negative duration,
    yields no stage. *)
Theorem newRequestReplyProcessor_timeout conf mgr p :
  RefusesNegativeTimeout →
  (newRequestReplyProcessor conf mgr).1 = Done p →
  0 ≤ timeout p ∧
  ∃ str c,
    service.FieldString_timeout conf = inr str ∧
    ParseDuration str = inr (timeout p) ∧
    natsConn p = Some c.
Proof.
  intros Hrefuse. unfold newRequestReplyProcessor.
  destruct (configure conf mgr) as [e|p0] eqn:Hconf; [discriminate|].
  rewrite connect_run. simpl.
  destruct (Connect (urls p0) (connectOptions p0)) as [e|c] eqn:Hd;
    [discriminate|].
  simpl. intros [= <-]. simpl. split.
  - destruct (Z.lt_ge_cases (timeout p0) 0) as [Hneg|?]; [|done].
    destruct (Hrefuse (urls p0) (connectOptions p0) (timeout p0)
                (timeoutOf_connectOptions p0) Hneg) as [err Herr].
    congruence.
  - destruct (configure_timeout _ _ _ Hconf) as (str & Hf & Hp).
    exists str, c. done.
Qed.

End Properties.

(** ** The claims on the bench *)

(** The stage [lab.shop] answers the record [lab.order] with the echoed
    reply; the request carries the explicit header before the metadata
    value. *)
Example shop_order :
  @Process lab.echoWorld Background lab.order lab.shop =
    (Done [lab.orderReply],
     {| self := self lab.shop;
        wire := [Requested (lab.conn true) (Some lab.threeSeconds)
                   lab.orderRequest] |}).
Proof. vm_compute. reflexivity. Qed.

Lemma Process_after_Close_witness :
  (@Process lab.echoWorld Background lab.order
     (Close Background lab.shop).2).1 = Panicked ∧
  returned (@Process lab.echoWorld Background lab.order
              (Close Background lab.shop).2).1 = None.
Proof.
  apply (@Process_after_Close lab.echoWorld Background Background lab.order
           lab.shop "orders.42" "order-42"); reflexivity.
Defined.

Lemma Process_timeout_witness :
  Some lab.threeSeconds = WithTimeout Background (timeout (self lab.shop)) ∧
  returned (@Process lab.silentWorld Background lab.order lab.shop).1 =
    Some ([], Some DeadlineExceeded).
Proof.
  apply (@Process_timeout lab.silentWorld Background lab.order lab.shop
           (lab.conn true) (Some lab.threeSeconds) lab.orderRequest).
  - vm_compute. reflexivity.
  - vm_compute. reflexivity.
Defined.

Lemma Process_header_order_witness :
  nats.Header_ lab.orderRequest !! "trace_id" =
    Some ["from-template"; "abc123"] ∧
  ∀ k', nats.Header_ lab.orderRequest !!! k' =
        templated (self lab.shop) lab.order k' ++
        selected (self lab.shop) lab.order k'.
Proof.
  apply (@Process_header_order lab.echoWorld Background lab.order lab.shop
           (lab.conn true) (Some lab.threeSeconds) lab.orderRequest
           "trace_id" (lab.literal "from-template") "from-template"
           (lab.only "trace_id") "abc123").
  - vm_compute. reflexivity.
  - reflexivity.
  - vm_compute. reflexivity.
  - reflexivity.
  - reflexivity.
  - vm_compute. reflexivity.
  - vm_compute. reflexivity.
Defined.

Lemma Process_no_header_support_witness :
  nats.Header_ (nats.withData (nats.NewMsg "orders.42") "order-42") = ∅ ∧
  @Process lab.echoWorld Background lab.order lab.plain =
    (@answer lab.echoWorld (lab.conn false)
       (callContext Background lab.plain)
       (nats.withData (nats.NewMsg "orders.42") "order-42"),
     {| self := self lab.plain;
        wire := wire lab.plain ++
                [Requested (lab.conn false) (callContext Background lab.plain)
                   (nats.withData (nats.NewMsg "orders.42") "order-42")] |}).
Proof.
  apply (@Process_no_header_support lab.echoWorld Background lab.order
           lab.plain (lab.conn false) "orders.42" "order-42"); reflexivity.
Defined.

Lemma Process_header_error_witness :
  ∃ pre k v post err,
    @rangeHeaders lab.echoWorld (headers (self lab.stamped)) =
      pre ++ (k, v) :: post ∧
    (∀ k' v', (k', v') ∈ pre →
              ∃ str, service.TryString v' lab.order = inr str) ∧
    headers (self lab.stamped) !! k = Some v ∧
    service.TryString v lab.order = inl err ∧
    @Process lab.echoWorld Background lab.order lab.stamped =
      (Failed (headerError k err), lab.stamped) ∧
    returned (@Process lab.echoWorld Background lab.order lab.stamped).1 =
      Some ([], Some (headerError k err)) ∧
    Error (headerError k err) =
      "header " +:+ k +:+ " interpolation error: " +:+ Error err ∧
    Unwrap (headerError k err) = Some err.
Proof.
  apply (@Process_header_error lab.echoWorld Background lab.order lab.stamped
           (lab.conn true) "orders.42" "order-42" "Timestamp"
           (lab.required "Timestamp")
           (errorString "value is null")).
  - reflexivity.
  - reflexivity.
  - reflexivity.
  - reflexivity.
  - vm_compute. reflexivity.
  - vm_compute. reflexivity.
Defined.

(** The stage [lab.traced] is the one the constructor returns for
    [lab.tracedConfig]. *)
Example traced_constructed :
  (@newRequestReplyProcessor lab.echoWorld lab.tracedConfig
     lab.resources).1 = Done (self lab.traced).
Proof. vm_compute. reflexivity. Qed.

Lemma Process_reply_witness :
  ∃ m,
    nats.Subject m = "orders.42" ∧ nats.Data m = "order-42" ∧
    appended lab.traced
      (@Process lab.echoWorld Background lab.order lab.traced).2
      [Requested (lab.conn true) (callContext Background lab.traced) m] ∧
    ∀ resp,
      @RequestMsgWithContext lab.echoWorld (lab.conn true)
        (callContext Background lab.traced) m = inr resp →
      (∀ out, @convertMessage lab.echoWorld resp = inr out →
              returned (@Process lab.echoWorld Background lab.order
                          lab.traced).1 = Some ([out], None)) ∧
      (∀ err, @convertMessage lab.echoWorld resp = inl err →
              returned (@Process lab.echoWorld Background lab.order
                          lab.traced).1 = Some ([], Some err)).
Proof.
  apply (@Process_reply lab.echoWorld Background lab.order lab.traced
           (lab.conn true) "orders.42" "order-42").
  - reflexivity.
  - reflexivity.
  - reflexivity.
  - intros k v Hkv.
    change (({[ "trace_id" := lab.literal "from-template" ]}
             : gmap string service.InterpolatedString) !! k = Some v) in Hkv.
    apply lookup_singleton_Some in Hkv as [_ <-]. exists "from-template".
    reflexivity.
Defined.

(** The stage [lab.traced] answers the record [lab.order] with exactly
    one record, the converted reply. *)
Example traced_order :
  returned (@Process lab.echoWorld Background lab.order lab.traced).1 =
    Some ([lab.orderReply], None).
Proof. vm_compute. reflexivity. Qed.

(** The client of the bench refuses a request without a subject, and its
    dialer a negative timeout. *)
Lemma lab_refuses_empty_subject : @RefusesEmptySubject lab.echoWorld.
Proof.
  intros c callCtx m Hm. simpl. unfold lab.client.
  destruct (match callCtx with Some d => d <=? 0 | None => false end);
    [eauto|].
  rewrite decide_True by done. eauto.
Qed.

Lemma lab_refuses_negative_timeout : @RefusesNegativeTimeout lab.echoWorld.
Proof.
  intros u opts d Hd Hneg. simpl. unfold lab.dial. rewrite Hd.
  apply Z.ltb_lt in Hneg. rewrite Hneg. eauto.
Qed.

Lemma Process_subject_nonempty_witness :
  (∀ b, (@Process lab.echoWorld Background lab.order lab.anonymous).1 =
          Done b →
        ∃ subj, service.TryString (subject (self lab.anonymous)) lab.order =
                  inr subj ∧ subj ≠ "") ∧
  (service.TryString (subject (self lab.anonymous)) lab.order = inr "" →
   (∀ b, (@Process lab.echoWorld Background lab.order lab.anonymous).1 ≠
           Done b) ∧
   ∀ c callCtx m,
     appended lab.anonymous
       (@Process lab.echoWorld Background lab.order lab.anonymous).2
       [Requested c callCtx m] →
     ∃ err, @RequestMsgWithContext lab.echoWorld c callCtx m = inl err ∧
            returned (@Process lab.echoWorld Background lab.order
                        lab.anonymous).1 = Some ([], Some err)).
Proof.
  apply (@Process_subject_nonempty lab.echoWorld Background lab.order
           lab.anonymous).
  exact lab_refuses_empty_subject.
Defined.

(** The subject template of [lab.anonymous] resolves to the empty
    string: the client is called, refuses, and its refusal is what
    [Process] returns. *)
Example Process_empty_subject :
  service.TryString (subject (self lab.anonymous)) lab.order = inr "" ∧
  @Process lab.echoWorld Background lab.order lab.anonymous =
    (Failed lab.ErrBadSubject,
     {| self := self lab.anonymous;
        wire := [Requested (lab.conn true) (Some lab.threeSeconds)
                   (lab.bareRequest "" "order-42")] |}).
Proof. split; vm_compute; reflexivity. Qed.

Lemma newRequestReplyProcessor_timeout_witness :
  0 ≤ timeout (self lab.fresh) ∧
  ∃ str c,
    service.FieldString_timeout
      (lab.config (lab.literal "orders.42") ∅ "3s") = inr str ∧
    @ParseDuration lab.echoWorld str = inr (timeout (self lab.fresh)) ∧
    natsConn (self lab.fresh) = Some c.
Proof.
  apply (@newRequestReplyProcessor_timeout lab.echoWorld
           (lab.config (lab.literal "orders.42") ∅ "3s") lab.resources).
  - exact lab_refuses_negative_timeout.
  - vm_compute. reflexivity.
Defined.

(** A negative timeout: the dialer refuses and no stage is made. *)
Example negative_timeout_refused :
  @newRequestReplyProcessor lab.echoWorld
    (lab.config (lab.literal "orders.42") ∅ "-1s") lab.resources =
    (Failed lab.ErrBadTimeout,
     [Dialed lab.freshUrls
        [nats.Name "stage"; nats.AuthOption "none";
         nats.ErrorHandler (nats.LoggerOf "log");
         nats.Timeout (-1000000000)]]).
Proof. vm_compute. reflexivity. Qed.

(** *** Counterexamples to the claims as the specification words them *)

(** C7 as worded fails: the timeout string [0s] parses, the constructor
    returns a stage, and the timeout it stores is not positive. *)
Lemma newRequestReplyProcessor_zero_timeout :
  (@newRequestReplyProcessor lab.echoWorld
     (lab.config (lab.literal "orders.42") ∅ "0s") lab.resources).1 =
    Done (self lab.idle) ∧
  ¬ (0 < timeout (self lab.idle)).
Proof. split; [vm_compute; reflexivity|]. vm_compute. discriminate. Qed.

(** C8 as worded fails: both explicit header templates of [lab.twice]
    fail on the record, and the error that [Process] returns names one of
    them only; the name of the other, [X-First], does not occur in it. *)
Lemma Process_header_error_unnamed :
  headers (self lab.twice) !! "X-First" = Some lab.broken ∧
  service.TryString lab.broken lab.order =
    inl (errorString "failed to evaluate") ∧
  @Process lab.echoWorld Background lab.order lab.twice =
    (Failed (headerError "X-Second" (errorString "failed to evaluate")),
     lab.twice) ∧
  Error (headerError "X-Second" (errorString "failed to evaluate")) =
    "header X-Second interpolation error: failed to evaluate" ∧
  String.index 0 "X-First"
    (Error (headerError "X-Second" (errorString "failed to evaluate"))) =
    None.
Proof. repeat split; vm_compute; reflexivity. Qed.

(** * Further properties of the processor *)

Section Further.

Context `{World}.

(** *** Runs of [Process] *)

(** X1. A call of [Process] makes at most one call on the broker client:
    the log grows by nothing, or by one request, made on the stage's own
    connection under the incoming context cut to the configured timeout
    and carrying the serialized record. It never dials and never closes,
    and it does not try again. *)
Theorem Process_one_request ctx msg s :
  ∃ evs,
    appended s (Process ctx msg s).2 evs ∧
    (evs = [] ∨
     ∃ c m, natsConn (self s) = Some c ∧
            AsBytes msg = inr (nats.Data m) ∧
            evs = [Requested c (WithTimeout ctx (timeout (self s))) m]).
Proof.
  destruct (Process_cases ctx msg s) as (res & evs & -> & Hc).
  exists evs. split; [done|].
  destruct Hc as [[-> _]|(c & m & (Hc & _ & Hd & _) & -> & _)]; [by left|].
  right. exists c, m. done.
Qed.

(** X2. [Process] returns records only when it issued its request, the
    client answered with a reply and the reply converted; the batch is
    then that one converted reply. *)
Theorem Process_done ctx msg s b :
  (Process ctx msg s).1 = Done b →
  ∃ c m resp out,
    natsConn (self s) = Some c ∧
    appended s (Process ctx msg s).2 [Requested c (callContext ctx s) m] ∧
    RequestMsgWithContext c (callContext ctx s) m = inr resp ∧
    convertMessage resp = inr out ∧
    b = [out].
Proof.
  destruct (Process_cases ctx msg s) as (res & evs & -> & Hc). simpl.
  intros ->.
  destruct Hc as [[_ Hr]|(c & m & (Hc & _) & -> & Ha)].
  { by destruct (Rejected_not_Done _ _ _ Hr b). }
  unfold answer in Ha.
  destruct (RequestMsgWithContext c (callContext ctx s) m) as [e|resp] eqn:Hr;
    [discriminate|].
  destruct (convertMessage resp) as [e|out] eqn:Ho; [discriminate|].
  injection Ha as ->. exists c, m, resp, out. done.
Qed.

(** X3. Whatever error the client returns for the request, a deadline or
    a transport failure, [Process] returns that error unchanged and no
    record. *)
Theorem Process_request_error ctx msg s c callCtx m err :
  appended s (Process ctx msg s).2 [Requested c callCtx m] →
  RequestMsgWithContext c callCtx m = inl err →
  (Process ctx msg s).1 = Failed err ∧
  returned (Process ctx msg s).1 = Some ([], Some err).
Proof.
  intros (_ & _ & ->)%Process_issued Hr. unfold answer. by rewrite Hr.
Qed.

(** X4. A record that cannot be serialized is turned away with the
    serializer's error before the connection is touched: no request is
    made and the stage is unchanged, also on a closed stage. *)
Theorem Process_serialization_error ctx msg s subj err :
  service.TryString (subject (self s)) msg = inr subj →
  AsBytes msg = inl err →
  Process ctx msg s = (Failed err, s).
Proof.
  intros Hs Hd. apply Process_rejected. by apply (RejectedBytes _ _ subj).
Qed.

(** X5. [Process] panics exactly when the stage holds no connection and
    the record passes the two steps that come before the connection is
    used: its subject evaluates and it serializes. *)
Theorem Process_panics_iff ctx msg s :
  (Process ctx msg s).1 = Panicked ↔
  natsConn (self s) = None ∧
  (∃ subj, service.TryString (subject (self s)) msg = inr subj) ∧
  (∃ data, AsBytes msg = inr data).
Proof.
  split.
  - destruct (Process_cases ctx msg s) as (res & evs & -> & Hc). simpl.
    intros ->. destruct Hc as [[_ Hr]|(c & m & _ & _ & Ha)].
    + inversion Hr; eauto.
    + unfold answer in Ha.
      destruct (RequestMsgWithContext c (callContext ctx s) m) as [e|resp];
        [discriminate|].
      destruct (convertMessage resp); discriminate.
  - intros (Hc & [subj Hs] & [data Hd]).
    rewrite (Process_rejected _ _ _ Panicked); [done|].
    by apply (RejectedNilConn _ _ subj data).
Qed.

(** *** The header of a request *)

Lemma Add_nonempty (h : nats.Header) key value k :
  h !! k ≠ Some [] → nats.Add key value h !! k ≠ Some [].
Proof.
  intros Hh. unfold nats.Add. destruct (decide (key = k)) as [->|Hne].
  - rewrite lookup_insert_eq. intros [= Hnil].
    by apply app_nil in Hnil as [_ ?].
  - by rewrite lookup_insert_ne.
Qed.

Lemma foldl_Add_nonempty (l : list (string * string)) (h : nats.Header) k :
  h !! k ≠ Some [] →
  foldl (λ a kv, nats.Add kv.1 kv.2 a) h l !! k ≠ Some [].
Proof.
  revert h. induction l as [|[k' v'] l IH]; intros h Hh; simpl; [done|].
  apply IH. by apply Add_nonempty.
Qed.

Lemma Outbound_nonempty r msg c m k :
  Outbound r msg c m → nats.Header_ m !! k ≠ Some [].
Proof.
  intros (_ & _ & _ & _ & Hh). destruct (nats.infoHeaders c).
  - destruct Hh as (h & Ha & ->). apply addHeaders_inr in Ha as ->.
    unfold Walk. destruct (metaFilter r).
    + apply foldl_Add_nonempty, foldl_Add_nonempty. by rewrite lookup_empty.
    + apply foldl_Add_nonempty. by rewrite lookup_empty.
  - rewrite Hh. by rewrite lookup_empty.
Qed.

Lemma lookup_of_total (h : nats.Header) k :
  h !! k ≠ Some [] →
  h !! k = match h !!! k with
           | [] => None
           | l => Some l
           end.
Proof.
  rewrite lookup_total_alt. destruct (h !! k) as [[|v l]|]; simpl; congruence.
Qed.

(** X6. The header of a request is fixed by the stage and the record
    alone, whatever the order in which the runtime ranges over the two
    maps: on a connection with header support a key is present exactly
    when an explicit header of that name evaluates or the filter selects
    a metadata value of that name, and holds the former before the
    latter; without header support no key is present. *)
Theorem Process_header_exact ctx msg s c callCtx m k :
  appended s (Process ctx msg s).2 [Requested c callCtx m] →
  nats.Header_ m !! k =
    if nats.infoHeaders c then
      match templated (self s) msg k ++ selected (self s) msg k with
      | [] => None
      | l => Some l
      end
    else None.
Proof.
  intros (Ho & _ & _)%Process_issued.
  destruct (nats.infoHeaders c) eqn:Hi.
  - rewrite (lookup_of_total _ _ (Outbound_nonempty _ _ _ _ k Ho)).
    by rewrite (Outbound_header _ _ _ _ k Ho Hi).
  - destruct Ho as (_ & _ & _ & _ & Hh). rewrite Hi in Hh.
    by rewrite Hh, lookup_empty.
Qed.

(** X7. Every request has a deadline: it is never later than the
    configured timeout, never later than the deadline of the incoming
    context, and is the configured timeout when the incoming context has
    none. *)
Theorem Process_deadline ctx msg s c callCtx m :
  appended s (Process ctx msg s).2 [Requested c callCtx m] →
  ∃ d, callCtx = Some d ∧
       d ≤ timeout (self s) ∧
       (∀ r, ctx = Some r → d ≤ r) ∧
       (ctx = None → d = timeout (self s)).
Proof.
  intros (_ & -> & _)%Process_issued. unfold callContext, WithTimeout.
  destruct ctx as [r|].
  - exists (Z.min r (timeout (self s))). split; [done|].
    split; [lia|]. split; [|done]. intros r' [= <-]. lia.
  - exists (timeout (self s)). split; [done|]. split; [lia|]. done.
Qed.

(** *** The constructor *)

Lemma configure_inr conf mgr p0 :
  configure conf mgr = inr p0 →
  ∃ urlList tls enabled,
    service.FieldStringList_urls conf = inr urlList ∧
    service.FieldInterpolatedString_subject conf = inr (subject p0) ∧
    (if service.Contains_inbox_prefix conf
     then service.FieldString_inbox_prefix conf = inr (inboxPrefix p0)
     else inboxPrefix p0 = "") ∧
    service.FieldInterpolatedStringMap_headers conf = inr (headers p0) ∧
    service.FieldTLSToggled_tls conf = inr (tls, enabled) ∧
    service.AuthFromParsedConfig_auth conf = inr (authConf p0) ∧
    urls p0 = Join urlList "," ∧
    tlsConf p0 = (if enabled then Some tls else None) ∧
    label p0 = service.Label mgr ∧
    log p0 = service.Logger_ mgr ∧
    fs p0 = service.FS_ mgr ∧
    metaFilter p0 = None ∧
    natsConn p0 = None ∧
    connMut p0 = unlocked.
Proof.
  unfold configure, mbind, sum_bind, mret, sum_ret.
  destruct (service.FieldStringList_urls conf) as [|urlList];
    [discriminate|].
  destruct (service.FieldInterpolatedString_subject conf); [discriminate|].
  destruct (service.Contains_inbox_prefix conf);
    [destruct (service.FieldString_inbox_prefix conf); [discriminate|]|];
    (destruct (service.FieldInterpolatedStringMap_headers conf);
       [discriminate|];
     destruct (service.FieldString_timeout conf) as [|str]; [discriminate|];
     destruct (ParseDuration str); [discriminate|];
     destruct (service.FieldTLSToggled_tls conf) as [|[tls enabled]];
       [discriminate|];
     destruct (service.AuthFromParsedConfig_auth conf); [discriminate|];
     intros [= <-]; exists urlList, tls, enabled; simpl; done).
Qed.

Lemma configure_inl conf mgr :
  Malformed conf ↔ ∃ err, configure conf mgr = inl err.
Proof.
  unfold Malformed, configure, mbind, sum_bind, mret, sum_ret.
  destruct (service.FieldStringList_urls conf) as [e1|urlList].
  { split; eauto. }
  destruct (service.FieldInterpolatedString_subject conf) as [e2|subj].
  { split; eauto 6. }
  destruct (service.Contains_inbox_prefix conf) eqn:Hc;
    [destruct (service.FieldString_inbox_prefix conf) as [e3|pre];
       [split; eauto 8|]|];
    (destruct (service.FieldInterpolatedStringMap_headers conf) as [e4|hs];
       [split; eauto 8|];
     destruct (service.FieldString_timeout conf) as [e5|str];
       [split; eauto 10|];
     destruct (ParseDuration str) as [e6|d] eqn:Hd;
       [split; eauto 12|];
     destruct (service.FieldTLSToggled_tls conf) as [e7|[tls enabled]];
       [split; eauto 14|];
     destruct (service.AuthFromParsedConfig_auth conf) as [e8|auth];
       [split; eauto 16|];
     split; [|intros [? [=]]];
     intros [[? [=]]|[[? [=]]|[[? [? [=]]]|[[? [=]]|[[? [=]]|
             [(? & ? & [= <-] & ?)|[[? [=]]|[? [=]]]]]]]]]; congruence).
Qed.

Lemma newRequestReplyProcessor_run conf mgr p0 :
  configure conf mgr = inr p0 →
  newRequestReplyProcessor conf mgr =
    (match Connect (urls p0) (connectOptions p0) with
     | inl err => Failed err
     | inr c => Done (Unlock (set_natsConn (Some c) p0))
     end,
     [Dialed (urls p0) (connectOptions p0)]).
Proof.
  intros Hc. unfold newRequestReplyProcessor. rewrite Hc, connect_run. simpl.
  by destruct (Connect (urls p0) (connectOptions p0)).
Qed.

Lemma connectOptions_last p :
  last (connectOptions p) = Some (nats.Timeout (timeout p)).
Proof. unfold connectOptions. apply last_snoc. Qed.


(** X8. The constructor fails without dialling exactly when the
    configuration is malformed: a field that cannot be read, or a timeout
    string that is no duration. No connection is attempted for such a
    configuration, and a well-formed one always reaches the dialer. *)
Theorem newRequestReplyProcessor_malformed conf mgr :
  Malformed conf ↔
  ∃ err, newRequestReplyProcessor conf mgr = (Failed err, []).
Proof.
  rewrite (configure_inl conf mgr). split.
  - intros [err He]. exists err. unfold newRequestReplyProcessor.
    by rewrite He.
  - intros [err Hn].
    destruct (configure conf mgr) as [e|p0] eqn:Hc; [eauto|].
    rewrite (newRequestReplyProcessor_run _ _ _ Hc) in Hn. discriminate.
Qed.

(** X9. A stage that the constructor returns is the configuration, read
    field by field, and the connection of the one dial it made: the URLs
    joined by commas, the subject and header templates, the inbox prefix
    only when the configuration has one, the TLS material only when the
    toggle is on, the label of the resources, no metadata filter, a free
    lock, and the handle the dialer returned for those URLs and options,
    the last of which is the request timeout. *)
Theorem newRequestReplyProcessor_done conf mgr p :
  (newRequestReplyProcessor conf mgr).1 = Done p →
  ∃ urlList tls enabled c,
    service.FieldStringList_urls conf = inr urlList ∧
    urls p = Join urlList "," ∧
    service.FieldInterpolatedString_subject conf = inr (subject p) ∧
    service.FieldInterpolatedStringMap_headers conf = inr (headers p) ∧
    (if service.Contains_inbox_prefix conf
     then service.FieldString_inbox_prefix conf = inr (inboxPrefix p)
     else inboxPrefix p = "") ∧
    service.FieldTLSToggled_tls conf = inr (tls, enabled) ∧
    tlsConf p = (if enabled then Some tls else None) ∧
    label p = service.Label mgr ∧
    metaFilter p = None ∧
    connMut p = unlocked ∧
    natsConn p = Some c ∧
    Connect (urls p) (connectOptions p) = inr c ∧
    last (connectOptions p) = Some (nats.Timeout (timeout p)) ∧
    (newRequestReplyProcessor conf mgr).2 =
      [Dialed (urls p) (connectOptions p)].
Proof.
  destruct (configure conf mgr) as [e|p0] eqn:Hc.
  { unfold newRequestReplyProcessor. rewrite Hc. discriminate. }
  rewrite (newRequestReplyProcessor_run _ _ _ Hc). simpl.
  destruct (Connect (urls p0) (connectOptions p0)) as [e|c] eqn:Hd;
    [discriminate|].
  intros [= <-].
  destruct (configure_inr _ _ _ Hc)
    as (urlList & tls & enabled & Hu & Hs & Hi & Hh & Ht & _ & Hj & Htls &
        Hl & _ & _ & Hf & _ & Hm).
  exists urlList, tls, enabled, c.
  change (connectOptions (Unlock (set_natsConn (Some c) p0)))
    with (connectOptions p0).
  rewrite connectOptions_last. simpl. rewrite Hm. done.
Qed.

(** X10. Once the constructor has dialled, the dial alone decides: an
    error of the dialer is returned unchanged and no stage is returned; a
    connection is stored in the stage that is returned. *)
Theorem newRequestReplyProcessor_dial conf mgr u opts :
  (newRequestReplyProcessor conf mgr).2 = [Dialed u opts] →
  (∀ err, Connect u opts = inl err →
          (newRequestReplyProcessor conf mgr).1 = Failed err) ∧
  (∀ c, Connect u opts = inr c →
        ∃ p, (newRequestReplyProcessor conf mgr).1 = Done p ∧
             natsConn p = Some c).
Proof.
  destruct (configure conf mgr) as [e|p0] eqn:Hc.
  { unfold newRequestReplyProcessor. rewrite Hc. discriminate. }
  rewrite (newRequestReplyProcessor_run _ _ _ Hc). simpl.
  intros [= <- <-]. split.
  - intros err ->. done.
  - intros c ->. eauto.
Qed.


(** X12. Closing a stage that the constructor returned closes the
    connection that the constructor dialled: the log of the stage's life
    is that dial followed by the closing of the handle the dial gave. *)
Theorem constructed_Close conf mgr p w ctx :
  newRequestReplyProcessor conf mgr = (Done p, w) →
  ∃ c,
    Connect (urls p) (connectOptions p) = inr c ∧
    Close ctx {| self := p; wire := w |} =
      (Done tt,
       {| self := set_natsConn None p;
          wire := [Dialed (urls p) (connectOptions p); ConnClosed c] |}).
Proof.
  destruct (configure conf mgr) as [e|p0] eqn:Hc.
  { unfold newRequestReplyProcessor. rewrite Hc. discriminate. }
  rewrite (newRequestReplyProcessor_run _ _ _ Hc).
  destruct (Connect (urls p0) (connectOptions p0)) as [e|c] eqn:Hd;
    [discriminate|].
  intros [= <- <-]. exists c. split; [done|].
  rewrite Close_run. simpl. reflexivity.
Qed.

(** X13. [Close] touches nothing but the handle: every configuration
    field of the stage is kept, the exclusive lock it took is released and
    the readers of the lock are as before. *)
Theorem Close_keeps_configuration ctx s :
  let p := self s in
  let p' := self (Close ctx s).2 in
  label p' = label p ∧ urls p' = urls p ∧ headers p' = headers p ∧
  metaFilter p' = metaFilter p ∧ subject p' = subject p ∧
  inboxPrefix p' = inboxPrefix p ∧ timeout p' = timeout p ∧
  tlsConf p' = tlsConf p ∧ authConf p' = authConf p ∧
  log p' = log p ∧ fs p' = fs p ∧
  readers (connMut p') = readers (connMut p) ∧
  writer (connMut p') = false.
Proof. rewrite Close_run. simpl. done. Qed.

(** X14. The constructor reads no metadata filter, so the stage it
    returns has none; with no filter nothing is selected, and the header
    of every request of such a stage holds the evaluated explicit headers
    and nothing else. *)
Theorem constructed_sends_no_metadata conf mgr p ctx msg w c callCtx m k :
  (newRequestReplyProcessor conf mgr).1 = Done p →
  appended {| self := p; wire := w |}
    (Process ctx msg {| self := p; wire := w |}).2
    [Requested c callCtx m] →
  metaFilter p = None ∧
  nats.Header_ m !!! k =
    if nats.infoHeaders c then templated p msg k else [].
Proof.
  intros Hn (Ho & _ & _)%Process_issued. simpl in Ho.
  assert (metaFilter p = None) as Hm.
  { destruct (configure conf mgr) as [e|p0] eqn:Hc.
    { unfold newRequestReplyProcessor in Hn. rewrite Hc in Hn.
      discriminate. }
    rewrite (newRequestReplyProcessor_run _ _ _ Hc) in Hn. simpl in Hn.
    destruct (Connect (urls p0) (connectOptions p0)); [discriminate|].
    injection Hn as <-. simpl.
    by destruct (configure_inr _ _ _ Hc)
      as (? & ? & ? & _ & _ & _ & _ & _ & _ & _ & _ & _ & _ & _ & ? & _). }
  split; [done|]. destruct (nats.infoHeaders c) eqn:Hi.
  - rewrite (Outbound_header _ _ _ _ k Ho Hi). unfold selected.
    by rewrite Hm, app_nil_r.
  - destruct Ho as (_ & _ & _ & _ & Hh). rewrite Hi in Hh.
    by rewrite Hh, lookup_total_empty.
Qed.

(** *** The header loop *)

Lemma addHeaders_first kvs pre k v post msg h err :
  kvs = pre ++ (k, v) :: post →
  (∀ k' v', (k', v') ∈ pre → ∃ str, service.TryString v' msg = inr str) →
  service.TryString v msg = inl err →
  addHeaders kvs msg h = inl (headerError k err).
Proof.
  intros -> Hpre Hv. revert h.
  induction pre as [|[k' v'] pre IH]; intros h; simpl.
  - by rewrite Hv.
  - destruct (Hpre k' v') as [str Hstr]; [by left|]. rewrite Hstr.
    apply IH. intros k'' v'' Hin. apply (Hpre k''). by right.
Qed.

(** X15. When several explicit header templates fail on a record, the
    error names the header that the range over the map reaches first:
    the headers before it evaluated, and none after it is looked at. No
    request is made and the stage is unchanged. *)
Theorem Process_first_header_error ctx msg s c subj data pre k v post err :
  natsConn (self s) = Some c →
  nats.infoHeaders c = true →
  service.TryString (subject (self s)) msg = inr subj →
  AsBytes msg = inr data →
  rangeHeaders (headers (self s)) = pre ++ (k, v) :: post →
  (∀ k' v', (k', v') ∈ pre → ∃ str, service.TryString v' msg = inr str) →
  service.TryString v msg = inl err →
  Process ctx msg s = (Failed (headerError k err), s).
Proof.
  intros Hc Hi Hs Hd Hr Hpre Hv. apply Process_rejected.
  apply (RejectedHeader _ _ subj data c); try done.
  by apply (addHeaders_first _ pre k v post).
Qed.

(** X16. The options the constructor hands to the dialer follow the
    configuration: the TLS material first, only when the toggle is on;
    then the inbox prefix, only when the configuration has one that is
    not empty; then the label of the resources as the connection name,
    the options of the authentication, the error handler, and last the
    parsed request timeout. The URLs are the configured ones joined by
    commas. *)
Theorem newRequestReplyProcessor_options conf mgr u opts :
  (newRequestReplyProcessor conf mgr).2 = [Dialed u opts] →
  ∃ urlList tls enabled prefix auth str d,
    service.FieldStringList_urls conf = inr urlList ∧
    service.FieldTLSToggled_tls conf = inr (tls, enabled) ∧
    (if service.Contains_inbox_prefix conf
     then service.FieldString_inbox_prefix conf = inr prefix
     else prefix = "") ∧
    service.AuthFromParsedConfig_auth conf = inr auth ∧
    service.FieldString_timeout conf = inr str ∧
    ParseDuration str = inr d ∧
    u = Join urlList "," ∧
    opts = (if enabled then [nats.Secure tls] else []) ++
           (if decide (prefix = "") then []
            else [nats.CustomInboxPrefix prefix]) ++
           [nats.Name (service.Label mgr)] ++
           authConfToOptions auth (service.FS_ mgr) ++
           [nats.ErrorHandler (service.Logger_ mgr); nats.Timeout d].
Proof.
  destruct (configure conf mgr) as [e|p0] eqn:Hc.
  { unfold newRequestReplyProcessor. rewrite Hc. discriminate. }
  rewrite (newRequestReplyProcessor_run _ _ _ Hc). simpl.
  intros [= <- <-].
  destruct (configure_inr _ _ _ Hc)
    as (urlList & tls & enabled & Hu & _ & Hi & _ & Ht & Ha & Hj & Htls &
        Hl & Hlog & Hfs & _).
  destruct (configure_timeout _ _ _ Hc) as (str & Hstr & Hd).
  exists urlList, tls, enabled, (inboxPrefix p0), (authConf p0), str,
    (timeout p0).
  repeat (split; [done|]).
  unfold connectOptions, errorHandlerOption.
  rewrite Htls, Hl, Hlog, Hfs.
  destruct enabled, (decide (inboxPrefix p0 = "")); simpl;
    by rewrite <- ?app_assoc.
Qed.

(** *** The metadata filter of a constructed stage *)

Lemma constructed_metaFilter conf mgr p :
  (newRequestReplyProcessor conf mgr).1 = Done p → metaFilter p = None.
Proof.
  intros Hn. destruct (configure conf mgr) as [e|p0] eqn:Hc.
  { unfold newRequestReplyProcessor in Hn. rewrite Hc in Hn. discriminate. }
  rewrite (newRequestReplyProcessor_run _ _ _ Hc) in Hn. simpl in Hn.
  destruct (Connect (urls p0) (connectOptions p0)); [discriminate|].
  injection Hn as <-. simpl.
  by destruct (configure_inr _ _ _ Hc)
    as (? & ? & ? & _ & _ & _ & _ & _ & _ & _ & _ & _ & _ & _ & ? & _).
Qed.

(** C3, as the code has it. The constructor does not read the metadata
    filter of the configuration. On a stage it returned, on a connection
    with header support, when a key is both the name of an explicit
    header and a key that the configured filter selects, with a value in
    the metadata of the record, the request holds under that key the
    evaluated template alone: the metadata value is not added. *)
Theorem constructed_header_collision
    conf mgr p ctx msg w c callCtx m k v tv flt mv :
  (newRequestReplyProcessor conf mgr).1 = Done p →
  service.Contains_metadata conf = true →
  service.FieldMetadataFilter_metadata conf = inr flt →
  service.Match flt k = true →
  appended {| self := p; wire := w |}
    (Process ctx msg {| self := p; wire := w |}).2
    [Requested c callCtx m] →
  nats.infoHeaders c = true →
  headers p !! k = Some v →
  service.TryString v msg = inr tv →
  service.metadata msg !! k = Some mv →
  nats.Header_ m !! k = Some [tv] ∧
  nats.Header_ m !! k ≠ Some [tv; mv].
Proof.
  intros Hn _ _ _ (Ho & _ & _)%Process_issued Hi Hk Hv Hmv. simpl in Ho.
  pose proof (Outbound_header _ _ _ _ k Ho Hi) as Hl.
  unfold templated, selected in Hl.
  rewrite Hk, Hv, (constructed_metaFilter _ _ _ Hn) in Hl. simpl in Hl.
  rewrite lookup_total_alt in Hl.
  destruct (nats.Header_ m !! k) as [l|]; simpl in Hl; [|discriminate].
  subst l. split; [done|]. discriminate.
Qed.

End Further.

(** ** The further properties on the bench *)

Lemma constructed_header_collision_witness :
  nats.Header_ lab.tracedRequest !! "trace_id" = Some ["from-template"] ∧
  nats.Header_ lab.tracedRequest !! "trace_id" ≠
    Some ["from-template"; "abc123"].
Proof.
  apply (@constructed_header_collision lab.echoWorld lab.tracedConfig
           lab.resources (self lab.traced) Background lab.order []
           (lab.conn true) (Some lab.threeSeconds) lab.tracedRequest
           "trace_id" (lab.literal "from-template") "from-template"
           (lab.only "trace_id") "abc123").
  - vm_compute. reflexivity.
  - reflexivity.
  - reflexivity.
  - vm_compute. reflexivity.
  - vm_compute. reflexivity.
  - reflexivity.
  - vm_compute. reflexivity.
  - reflexivity.
  - vm_compute. reflexivity.
Defined.

Lemma Process_done_witness :
  ∃ c m resp out,
    natsConn (self lab.shop) = Some c ∧
    appended lab.shop (@Process lab.echoWorld Background lab.order lab.shop).2
      [Requested c (callContext Background lab.shop) m] ∧
    @RequestMsgWithContext lab.echoWorld c
      (callContext Background lab.shop) m = inr resp ∧
    @convertMessage lab.echoWorld resp = inr out ∧
    [lab.orderReply] = [out].
Proof.
  apply (@Process_done lab.echoWorld Background lab.order lab.shop
           [lab.orderReply]).
  vm_compute. reflexivity.
Defined.

Lemma Process_request_error_witness :
  (@Process lab.droppedWorld Background lab.order lab.shop).1 =
    Failed lab.ErrConnectionClosed ∧
  returned (@Process lab.droppedWorld Background lab.order lab.shop).1 =
    Some ([], Some lab.ErrConnectionClosed).
Proof.
  apply (@Process_request_error lab.droppedWorld Background lab.order
           lab.shop (lab.conn true) (Some lab.threeSeconds)
           lab.orderRequest).
  - vm_compute. reflexivity.
  - vm_compute. reflexivity.
Defined.

Lemma Process_serialization_error_witness :
  @Process lab.unencodable Background lab.order lab.shop =
    (Failed (errorString "cannot encode"), lab.shop).
Proof.
  apply (@Process_serialization_error lab.unencodable Background lab.order
           lab.shop "orders.42"); reflexivity.
Defined.

Lemma Process_header_exact_witness :
  nats.Header_ lab.typedRequest !! "trace_id" =
    if nats.infoHeaders (lab.conn true) then
      match templated (self lab.typed) lab.order "trace_id" ++
            selected (self lab.typed) lab.order "trace_id" with
      | [] => None
      | l => Some l
      end
    else None.
Proof.
  apply (@Process_header_exact lab.echoWorld Background lab.order lab.typed
           (lab.conn true) (Some lab.threeSeconds) lab.typedRequest).
  vm_compute. reflexivity.
Defined.

Lemma Process_deadline_witness :
  ∃ d, Some 1000000000 = Some d ∧
       d ≤ timeout (self lab.shop) ∧
       (∀ r, Some 1000000000 = Some r → d ≤ r) ∧
       (Some 1000000000 = None → d = timeout (self lab.shop)).
Proof.
  apply (@Process_deadline lab.echoWorld (Some 1000000000) lab.order lab.shop
           (lab.conn true) (Some 1000000000) lab.orderRequest).
  vm_compute. reflexivity.
Defined.

Lemma newRequestReplyProcessor_done_witness :
  ∃ urlList tls enabled c,
    service.FieldStringList_urls lab.freshConfig = inr urlList ∧
    urls (self lab.fresh) = Join urlList "," ∧
    service.FieldInterpolatedString_subject lab.freshConfig =
      inr (subject (self lab.fresh)) ∧
    service.FieldInterpolatedStringMap_headers lab.freshConfig =
      inr (headers (self lab.fresh)) ∧
    (if service.Contains_inbox_prefix lab.freshConfig
     then service.FieldString_inbox_prefix lab.freshConfig =
            inr (inboxPrefix (self lab.fresh))
     else inboxPrefix (self lab.fresh) = "") ∧
    service.FieldTLSToggled_tls lab.freshConfig = inr (tls, enabled) ∧
    tlsConf (self lab.fresh) = (if enabled then Some tls else None) ∧
    label (self lab.fresh) = service.Label lab.resources ∧
    metaFilter (self lab.fresh) = None ∧
    connMut (self lab.fresh) = unlocked ∧
    natsConn (self lab.fresh) = Some c ∧
    @Connect lab.echoWorld (urls (self lab.fresh))
      (@connectOptions lab.echoWorld (self lab.fresh)) = inr c ∧
    last (@connectOptions lab.echoWorld (self lab.fresh)) =
      Some (nats.Timeout (timeout (self lab.fresh))) ∧
    (@newRequestReplyProcessor lab.echoWorld lab.freshConfig
       lab.resources).2 =
      [Dialed (urls (self lab.fresh))
         (@connectOptions lab.echoWorld (self lab.fresh))].
Proof.
  apply (@newRequestReplyProcessor_done lab.echoWorld lab.freshConfig
           lab.resources).
  vm_compute. reflexivity.
Defined.

Lemma newRequestReplyProcessor_dial_witness :
  (∀ err, @Connect lab.unreachable lab.freshUrls lab.freshOptions = inl err →
          (@newRequestReplyProcessor lab.unreachable lab.freshConfig
             lab.resources).1 = Failed err) ∧
  (∀ c, @Connect lab.unreachable lab.freshUrls lab.freshOptions = inr c →
        ∃ p, (@newRequestReplyProcessor lab.unreachable lab.freshConfig
                lab.resources).1 = Done p ∧
             natsConn p = Some c).
Proof.
  apply (@newRequestReplyProcessor_dial lab.unreachable lab.freshConfig
           lab.resources lab.freshUrls lab.freshOptions).
  vm_compute. reflexivity.
Defined.


Lemma constructed_Close_witness :
  ∃ c,
    @Connect lab.echoWorld (urls (self lab.fresh))
      (@connectOptions lab.echoWorld (self lab.fresh)) = inr c ∧
    Close Background
      {| self := self lab.fresh;
         wire := [Dialed lab.freshUrls lab.freshOptions] |} =
      (Done tt,
       {| self := set_natsConn None (self lab.fresh);
          wire := [Dialed (urls (self lab.fresh))
                     (@connectOptions lab.echoWorld (self lab.fresh));
                   ConnClosed c] |}).
Proof.
  apply (@constructed_Close lab.echoWorld lab.freshConfig lab.resources
           (self lab.fresh) [Dialed lab.freshUrls lab.freshOptions]
           Background).
  vm_compute. reflexivity.
Defined.

Lemma constructed_sends_no_metadata_witness :
  metaFilter (self lab.fresh) = None ∧
  nats.Header_ (lab.bareRequest "orders.42" "order-42") !!! "trace_id" =
    if nats.infoHeaders (lab.conn true)
    then templated (self lab.fresh) lab.order "trace_id"
    else [].
Proof.
  apply (@constructed_sends_no_metadata lab.echoWorld lab.freshConfig
           lab.resources (self lab.fresh) Background lab.order []
           (lab.conn true) (Some lab.threeSeconds)
           (lab.bareRequest "orders.42" "order-42") "trace_id").
  - vm_compute. reflexivity.
  - vm_compute. reflexivity.
Defined.

Lemma Process_first_header_error_witness :
  @Process lab.echoWorld Background lab.order lab.mixed =
    (Failed (headerError "Timestamp"
               (errorString "value is null")),
     lab.mixed).
Proof.
  apply (@Process_first_header_error lab.echoWorld Background lab.order
           lab.mixed (lab.conn true) "orders.42" "order-42"
           [("Content-Type", lab.literal "application/json")]
           "Timestamp" (lab.required "Timestamp") []).
  - reflexivity.
  - reflexivity.
  - reflexivity.
  - reflexivity.
  - vm_compute. reflexivity.
  - intros k' v' Hin. apply list_elem_of_singleton in Hin as [= -> ->].
    exists "application/json". reflexivity.
  - vm_compute. reflexivity.
Defined.

(** The constructor on a timeout that is no duration: nothing is
    dialled. *)
Example badTimeout_not_dialled :
  @newRequestReplyProcessor lab.echoWorld lab.badTimeout lab.resources =
    (Failed (time.invalid "soon"), []).
Proof. vm_compute. reflexivity. Qed.

Lemma newRequestReplyProcessor_options_witness :
  ∃ urlList tls enabled prefix auth str d,
    service.FieldStringList_urls lab.secureConfig = inr urlList ∧
    service.FieldTLSToggled_tls lab.secureConfig = inr (tls, enabled) ∧
    (if service.Contains_inbox_prefix lab.secureConfig
     then service.FieldString_inbox_prefix lab.secureConfig = inr prefix
     else prefix = "") ∧
    service.AuthFromParsedConfig_auth lab.secureConfig = inr auth ∧
    service.FieldString_timeout lab.secureConfig = inr str ∧
    @ParseDuration lab.echoWorld str = inr d ∧
    lab.secureUrls = Join urlList "," ∧
    lab.secureOptions =
      (if enabled then [nats.Secure tls] else []) ++
      (if decide (prefix = "") then []
       else [nats.CustomInboxPrefix prefix]) ++
      [nats.Name (service.Label lab.resources)] ++
      @authConfToOptions lab.echoWorld auth (service.FS_ lab.resources) ++
      [nats.ErrorHandler (service.Logger_ lab.resources); nats.Timeout d].
Proof.
  apply (@newRequestReplyProcessor_options lab.echoWorld lab.secureConfig
           lab.resources lab.secureUrls lab.secureOptions).
  vm_compute. reflexivity.
Defined.
